(** * AIbot: the conversation controller of [src/App.tsx]

    A shallow embedding of the React component [App]: its state
    ([messages], [input], [isLoading], [activeTool]), its event handlers
    ([handleSubmit], [handleKeyDown], the "new chat" button, ...), the
    completion gateway [callGroqAPI] and the start-up probe [testApiKey].

    Handlers are written in a small monad [Prog] whose constructors are
    the effects the source performs (state setters, [console], [Date.now],
    [t], and the one suspension point, [await axios.post]).  An event
    loop, [dispatch], runs a handler up to its suspension point and keeps
    the suspended continuation until the network settles the request. *)

From Stdlib Require Import String Ascii ZArith NArith QArith.
From stdpp Require Import base option list gmap fin_maps pretty.

#[local] Set Warnings "-register-all".
Local Open Scope N_scope.
Local Open Scope list_scope.

(** ** JavaScript strings *)

(** A JavaScript string is a sequence of UTF-16 code units. *)
Abbreviation JSString := (list N).

(** The code units of an ASCII literal of the source. *)
Definition js (s : string) : JSString :=
  map N_of_ascii (list_ascii_of_string s).

(** [WhiteSpace] and [LineTerminator] of ECMAScript: what
    [String.prototype.trim] removes. *)
Definition is_white_space (c : N) : bool :=
  (c =? 0x09) || (c =? 0x0A) || (c =? 0x0B) || (c =? 0x0C) || (c =? 0x0D)
  || (c =? 0x20) || (c =? 0xA0) || (c =? 0x1680)
  || ((0x2000 <=? c) && (c <=? 0x200A))
  || (c =? 0x2028) || (c =? 0x2029) || (c =? 0x202F) || (c =? 0x205F)
  || (c =? 0x3000) || (c =? 0xFEFF).

Fixpoint trimStart (s : JSString) : JSString :=
  match s with
  | c :: s' => if is_white_space c then trimStart s' else s
  | [] => []
  end.

Definition trimEnd (s : JSString) : JSString := rev (trimStart (rev s)).

(** [s.trim()] *)
Definition trim (s : JSString) : JSString := trimEnd (trimStart s).

(** [s.substring(0, n)] *)
Definition substring0 (n : nat) (s : JSString) : JSString := take n s.

(** [n.toString()] for a non-negative integer. *)
Definition toString (n : N) : JSString := js (pretty n).

(** ** JavaScript values (what [JSON] can carry, and [undefined]) *)

Inductive JSValue : Type :=
| JUndefined
| JNull
| JBool (b : bool)
| JNum (n : Z)   (* the program only ever tests a number for being 0 *)
| JStr (s : JSString)
| JArr (l : list JSValue)
| JObj (o : gmap JSString JSValue).

(** ToBoolean *)
Definition truthy (v : JSValue) : bool :=
  match v with
  | JUndefined | JNull => false
  | JBool b => b
  | JNum n => negb (n =? 0)%Z
  | JStr s => match s with [] => false | _ => true end
  | JArr _ | JObj _ => true
  end.

(** [a || b] *)
Definition js_or (a b : JSValue) : JSValue := if truthy a then a else b.

Definition nullish (v : JSValue) : bool :=
  match v with JUndefined | JNull => true | _ => false end.

(** An HTTP response as axios presents it. *)
Record Response := { status : Z; data : JSValue }.

(** What the program can throw or catch. *)
Inductive Exn : Type :=
| Error (message : JSValue)
    (* [new Error(message)] *)
| TypeError (base : JSValue) (prop : JSString)
    (* reading property [prop] of [undefined] or [null] *)
| AxiosError (message : JSString) (response : option Response).
    (* a rejected request; [response] is present when the server answered *)

(** [v.name]: own properties; none of the names the program reads is on
    a prototype. *)
Definition field (v : JSValue) (name : JSString) : Exn + JSValue :=
  match v with
  | JUndefined | JNull => inl (TypeError v name)
  | JObj o => inr (default JUndefined (o !! name))
  | JArr l =>
      inr (if decide (name = js "length")
           then JNum (Z.of_nat (length l)) else JUndefined)
  | JStr s =>
      inr (if decide (name = js "length")
           then JNum (Z.of_nat (length s)) else JUndefined)
  | JBool _ | JNum _ => inr JUndefined
  end.

(** [v[i]] for a literal index [i]. *)
Definition index (v : JSValue) (i : nat) : Exn + JSValue :=
  match v with
  | JUndefined | JNull => inl (TypeError v (toString (N.of_nat i)))
  | JObj o => inr (default JUndefined (o !! toString (N.of_nat i)))
  | JArr l => inr (default JUndefined (l !! i))
  | JStr s => inr (from_option (fun c => JStr [c]) JUndefined (s !! i))
  | JBool _ | JNum _ => inr JUndefined
  end.

(** [v?.name] *)
Definition opt_field (v : JSValue) (name : JSString) : JSValue :=
  match field v name with
  | inr x => x
  | inl _ => JUndefined
  end.

(** [error.response]; only axios errors carry one. *)
Definition exn_response (e : Exn) : option Response :=
  match e with
  | AxiosError _ r => r
  | Error _ | TypeError _ _ => None
  end.

(** [error.response?.data] *)
Definition exn_response_data (e : Exn) : JSValue :=
  from_option data JUndefined (exn_response e).

(** ** The data of the component *)

Inductive Role := user | assistant.

(** [interface Message].  [content] is declared [string], but the reply
    of the gateway is typed [any] and stored as it comes. *)
Record Message := { id : JSString; content : JSValue; role : Role }.

Inductive Tool := chat | editor | chart.

(** [style.height] of the text area. *)
Inductive Height := Initial | Auto | Px (h : Z).

(** The body and headers of a request to the completions endpoint. *)
Record Request := {
  url : JSString;
  model : JSString;
  req_messages : list (Role * JSValue);
  temperature : option Q;
  max_tokens : Z;
  headers : list (JSString * JSString)
}.

(** How the network settles [axios.post]. *)
Inductive Outcome :=
| Fulfilled (r : Response)
| Rejected (message : JSString) (response : option Response).

(** An argument of a [console] call. *)
Inductive LogArg :=
| LStr (s : JSString)
| LVal (v : JSValue)
| LNum (n : Z)
| LExn (e : Exn)        (* the error object itself *)
| LMessage (e : Exn).   (* [e.message] *)

Inductive LogEntry :=
| ConsoleLog (args : list LogArg)
| ConsoleError (args : list LogArg).

(** The argument of [setMessages]: the source passes either the updater
    [prev => [...prev, m]] or the array [[]]. *)
Inductive Updater :=
| Append (m : Message)
| Replace (l : list Message).

Definition update (u : Updater) (prev : list Message) : list Message :=
  match u with
  | Append m => prev ++ [m]
  | Replace l => l
  end.

(** ** Programs *)

(** Effects that return nothing. *)
Inductive Op :=
| PreventDefault
| SetMessages (u : Updater)
| SetInput (s : JSString)
| SetIsLoading (b : bool)
| SetActiveTool (tool : Tool)
| ChangeLanguage (lng : JSString)
| SetTextareaHeight (h : Height)
| Console (entry : LogEntry).

(** A handler: a tree of effects.  [Post] is [await axios.post(...)],
    the only point where a handler is suspended. *)
Inductive Prog (A : Type) : Type :=
| Ret (a : A)
| Throw (e : Exn)
| Act (o : Op) (k : Prog A)
| DateNow (k : N -> Prog A)
| Translate (key : JSString) (k : JSString -> Prog A)
| Language (k : JSString -> Prog A)
| Post (rq : Request) (k : Outcome -> Prog A).

Arguments Ret {A} a.
Arguments Throw {A} e.
Arguments Act {A} o k.
Arguments DateNow {A} k.
Arguments Translate {A} key k.
Arguments Language {A} k.
Arguments Post {A} rq k.

Fixpoint bind {A B} (p : Prog A) (f : A -> Prog B) : Prog B :=
  match p with
  | Ret a => f a
  | Throw e => Throw e
  | Act o k => Act o (bind k f)
  | DateNow k => DateNow (fun n => bind (k n) f)
  | Translate key k => Translate key (fun s => bind (k s) f)
  | Language k => Language (fun s => bind (k s) f)
  | Post rq k => Post rq (fun out => bind (k out) f)
  end.

(** [try { p } catch (error) { h error }] *)
Fixpoint try_catch {A} (p : Prog A) (h : Exn -> Prog A) : Prog A :=
  match p with
  | Ret a => Ret a
  | Throw e => h e
  | Act o k => Act o (try_catch k h)
  | DateNow k => DateNow (fun n => try_catch (k n) h)
  | Translate key k => Translate key (fun s => try_catch (k s) h)
  | Language k => Language (fun s => try_catch (k s) h)
  | Post rq k => Post rq (fun out => try_catch (k out) h)
  end.

(** [try { p } finally { f }]: [f] runs on both exits, then the exit of
    [p] is resumed. *)
Fixpoint try_finally {A} (p : Prog A) (f : Prog unit) : Prog A :=
  match p with
  | Ret a => bind f (fun _ => Ret a)
  | Throw e => bind f (fun _ => Throw e)
  | Act o k => Act o (try_finally k f)
  | DateNow k => DateNow (fun n => try_finally (k n) f)
  | Translate key k => Translate key (fun s => try_finally (k s) f)
  | Language k => Language (fun s => try_finally (k s) f)
  | Post rq k => Post rq (fun out => try_finally (k out) f)
  end.

Definition try_catch_finally {A}
    (p : Prog A) (h : Exn -> Prog A) (f : Prog unit) : Prog A :=
  try_finally (try_catch p h) f.

Declare Scope prog_scope.
Delimit Scope prog_scope with prog.
Bind Scope prog_scope with Prog.

Notation "x <- p ;; q" := (bind p (fun x => q))
  (at level 100, p at next level, right associativity) : prog_scope.
Notation "p ;; q" := (bind p (fun _ => q))
  (at level 100, right associativity) : prog_scope.

Definition act (o : Op) : Prog unit := Act o (Ret tt).
Definition Date_now : Prog N := DateNow Ret.
Definition t (key : JSString) : Prog JSString := Translate key Ret.
Definition i18n_language : Prog JSString := Language Ret.

(** A value or an exception, as a program. *)
Definition lift {A} (r : Exn + A) : Prog A :=
  match r with
  | inl e => Throw e
  | inr a => Ret a
  end.

(** [await axios.post(url, body, {headers})] *)
Definition axios_post (rq : Request) : Prog Response :=
  Post rq (fun out =>
    match out with
    | Fulfilled r => Ret r
    | Rejected m r => Throw (AxiosError m r)
    end).

Definition setMessages (u : Updater) := act (SetMessages u).
Definition setInput (s : JSString) := act (SetInput s).
Definition setIsLoading (b : bool) := act (SetIsLoading b).
Definition setActiveTool (tool : Tool) := act (SetActiveTool tool).
Definition console_log (args : list LogArg) := act (Console (ConsoleLog args)).
Definition console_error (args : list LogArg) :=
  act (Console (ConsoleError args)).

Local Open Scope prog_scope.

(** ** The state *)

(** The four [useState] cells.  A handler closes over the values of the
    render that created it, so a [State] is also what a handler sees. *)
Record State := {
  messages : list Message;
  input : JSString;
  isLoading : bool;
  activeTool : Tool
}.

(** Everything an event can change: the React state, the language of the
    i18n instance, the height of the text area, the console, the requests
    issued so far, and the handlers suspended on a request (keyed by the
    position of their request in [requests]). *)
Record World := {
  state : State;
  language : JSString;
  textareaHeight : Height;
  console : list LogEntry;
  requests : list Request;
  inflight : gmap nat (Outcome -> Prog unit)
}.

Definition with_state (f : State -> State) (w : World) : World :=
  {| state := f (state w); language := language w;
     textareaHeight := textareaHeight w; console := console w;
     requests := requests w; inflight := inflight w |}.

Definition with_inflight
    (f : gmap nat (Outcome -> Prog unit) -> gmap nat (Outcome -> Prog unit))
    (w : World) : World :=
  {| state := state w; language := language w;
     textareaHeight := textareaHeight w; console := console w;
     requests := requests w; inflight := f (inflight w) |}.

(** What one effect does to the world.  State setters are applied to the
    latest state; the handler that called them keeps seeing its own
    snapshot. *)
Definition perform (o : Op) (w : World) : World :=
  match o with
  | PreventDefault => w
  | SetMessages u =>
      with_state (fun s =>
        {| messages := update u (messages s); input := input s;
           isLoading := isLoading s; activeTool := activeTool s |}) w
  | SetInput v =>
      with_state (fun s =>
        {| messages := messages s; input := v;
           isLoading := isLoading s; activeTool := activeTool s |}) w
  | SetIsLoading b =>
      with_state (fun s =>
        {| messages := messages s; input := input s;
           isLoading := b; activeTool := activeTool s |}) w
  | SetActiveTool tool =>
      with_state (fun s =>
        {| messages := messages s; input := input s;
           isLoading := isLoading s; activeTool := tool |}) w
  | ChangeLanguage lng =>
      {| state := state w; language := lng;
         textareaHeight := textareaHeight w; console := console w;
         requests := requests w; inflight := inflight w |}
  | SetTextareaHeight h =>
      {| state := state w; language := language w;
         textareaHeight := h; console := console w;
         requests := requests w; inflight := inflight w |}
  | Console entry =>
      {| state := state w; language := language w;
         textareaHeight := textareaHeight w; console := console w ++ [entry];
         requests := requests w; inflight := inflight w |}
  end.

(** [import.meta.env.X]: a string, or [undefined] when not configured. *)
Definition env_value (x : option JSString) : JSValue :=
  from_option JStr JUndefined x.

Definition endpoint : JSString := js "https://api.groq.com/v1/chat/completions".

Definition request_headers (apiKey : JSString) : list (JSString * JSString) :=
  [ (js "Content-Type", js "application/json");
    (js "Authorization", js "Bearer " ++ apiKey) ].

(** The request of [testApiKey] (lines 37-46). *)
Definition probe_request (apiKey : JSString) : Request :=
  {| url := endpoint;
     model := js "mixtral-8x7b-32768";
     req_messages := [(user, JStr (js "Hello"))];
     temperature := None;
     max_tokens := 10;
     headers := request_headers apiKey |}.

(** The request of [callGroqAPI] (lines 79-92). *)
Definition completion_request (apiKey : JSString) (userMessages : list Message)
  : Request :=
  {| url := endpoint;
     model := js "mixtral-8x7b-32768";
     req_messages := map (fun msg => (role msg, content msg)) userMessages;
     temperature := Some (7 # 10)%Q;
     max_tokens := 2048;
     headers := request_headers apiKey |}.

(** [error.response?.data || error.message] *)
Definition error_detail (error : Exn) : LogArg :=
  if truthy (exn_response_data error)
  then LVal (exn_response_data error)
  else LMessage error.

(** [response.data.choices[0].message.content] *)
Definition first_choice_content (response : Response) : Exn + JSValue :=
  match field (data response) (js "choices") with
  | inl e => inl e
  | inr choices =>
      match index choices 0 with
      | inl e => inl e
      | inr choice =>
          match field choice (js "message") with
          | inl e => inl e
          | inr message => field message (js "content")
          end
      end
  end.

(** Line 97: [new Error(error.response?.data?.error?.message || '...')] *)
Definition rethrown (error : Exn) : Exn :=
  Error
    (js_or
       (opt_field (opt_field (exn_response_data error) (js "error"))
                  (js "message"))
       (JStr (js "Failed to get response from Groq API"))).

Section App.

(** [import.meta.env.VITE_GROQ_API_KEY] *)
Variable VITE_GROQ_API_KEY : option JSString.

(** The translation resources: language, key, text. *)
Variable resources : JSString -> JSString -> JSString.

(** *** [testApiKey] *)
Definition testApiKey (apiKey : JSString) : Prog unit :=
  try_catch
    (response <- axios_post (probe_request apiKey) ;;
     console_log [LStr (js "API connection successful!");
                  LNum (status response)])
    (fun error =>
       console_error [LStr (js "API test failed:"); error_detail error]).

(** The effect run once when the component mounts. *)
Definition mountEffect : Prog unit :=
  let apiKey := VITE_GROQ_API_KEY in
  if negb (truthy (env_value apiKey))
  then console_error
         [LStr (js "API key is missing! Please check your .env file")]
  else
    console_log [LStr (js "API key found (first few chars):");
                 LStr (substring0 5 (default [] apiKey) ++ js "...")] ;;
    testApiKey (default [] apiKey).

(** *** [callGroqAPI], the completion gateway *)
Definition callGroqAPI (userMessages : list Message) : Prog JSValue :=
  try_catch
    (let apiKey := VITE_GROQ_API_KEY in
     (if negb (truthy (env_value apiKey))
      then
        console_error
          [LStr (js "API key is missing. Please check your .env file.")] ;;
        Throw (Error (JStr (js "API key is missing")))
      else Ret tt) ;;
     console_log [LStr (js "Using API key (first few chars):");
                  LStr (substring0 5 (default [] apiKey) ++ js "...")] ;;
     response <- axios_post
       (completion_request (default [] apiKey) userMessages) ;;
     lift (first_choice_content response))
    (fun error =>
       console_error [LStr (js "Error calling Groq API:"); error_detail error] ;;
       Throw (rethrown error)).

(** *** [handleSubmit] *)

(** Lines 123-129: the reply becomes an assistant message. *)
Definition onReply (aiResponse : JSValue) : Prog unit :=
  n <- Date_now ;;
  let aiMessage :=
    {| id := toString (n + 1); content := aiResponse; role := assistant |} in
  setMessages (Append aiMessage).

(** Lines 130-137: the [catch] clause. *)
Definition onError (error : Exn) : Prog unit :=
  console_error [LStr (js "Error in chat completion:"); LExn error] ;;
  n <- Date_now ;;
  text <- t (js "error.apiError") ;;
  let errorMessage :=
    {| id := toString (n + 1); content := JStr text; role := assistant |} in
  setMessages (Append errorMessage).

(** Lines 119-140: the [try]/[catch]/[finally] around the gateway call. *)
Definition handleSubmit_try (s : State) (userMessage : Message) : Prog unit :=
  try_catch_finally
    (let conversationHistory := messages s ++ [userMessage] in
     aiResponse <- callGroqAPI conversationHistory ;;
     onReply aiResponse)
    onError
    (setIsLoading false).

(** [s] is the state of the render the handler belongs to. *)
Definition handleSubmit (s : State) : Prog unit :=
  act PreventDefault ;;
  if negb (truthy (JStr (trim (input s)))) || isLoading s then Ret tt
  else
    n <- Date_now ;;
    let userMessage :=
      {| id := toString n; content := JStr (trim (input s)); role := user |} in
    setMessages (Append userMessage) ;;
    setInput [] ;;
    setIsLoading true ;;
    act (SetTextareaHeight Auto) ;;
    handleSubmit_try s userMessage.

Definition handleKeyDown (s : State) (key : JSString) (shiftKey : bool)
  : Prog unit :=
  if bool_decide (key = js "Enter") && negb shiftKey
  then act PreventDefault ;; handleSubmit s
  else Ret tt.

(** [onChange] of the text area; [scrollHeight] is what the DOM reports
    once the height is [auto]. *)
Definition onChange (value : JSString) (scrollHeight : Z) : Prog unit :=
  setInput value ;;
  act (SetTextareaHeight Auto) ;;
  act (SetTextareaHeight (Px (Z.min scrollHeight 200))).

(** [onClick] of the "new chat" button. *)
Definition newChat : Prog unit :=
  setMessages (Replace []) ;;
  setInput [].

Definition toggleLanguage : Prog unit :=
  lng <- i18n_language ;;
  let newLang := if decide (lng = js "en") then js "zh" else js "en" in
  act (ChangeLanguage newLang).

(** ** Running programs *)

(** One effect of [p]; [None] when [p] has finished or is suspended on a
    request.  [clock] is what [Date.now()] reads. *)
Definition step {A} (clock : N) (c : Prog A * World) : option (Prog A * World) :=
  match c with
  | (Act o k, w) => Some (k, perform o w)
  | (DateNow k, w) => Some (k clock, w)
  | (Translate key k, w) => Some (k (resources (language w) key), w)
  | (Language k, w) => Some (k (language w), w)
  | (Ret _, _) | (Throw _, _) | (Post _ _, _) => None
  end.

(** At most [n] effects. *)
Fixpoint steps {A} (clock : N) (n : nat) (c : Prog A * World) : Prog A * World :=
  match n with
  | O => c
  | S n' =>
      match step clock c with
      | Some c' => steps clock n' c'
      | None => c
      end
  end.

(** All the effects of [p] up to its end or its first [await]. *)
Fixpoint exec {A} (clock : N) (p : Prog A) (w : World) : Prog A * World :=
  match p with
  | Act o k => exec clock k (perform o w)
  | DateNow k => exec clock (k clock) w
  | Translate key k => exec clock (k (resources (language w) key)) w
  | Language k => exec clock (k (language w)) w
  | Ret _ | Throw _ | Post _ _ => (p, w)
  end.

(** Run a handler within one event.  If it stops at a request, the
    request is issued and the rest of the handler is kept until the
    request settles; otherwise it has ended and leaves the world as it
    made it.  An [await] on a promise that is already settled (a gateway
    call that failed before its request) is resumed before any other
    event, so [exec] runs through it. *)
Definition spawn (clock : N) (p : Prog unit) (w : World) : World :=
  match exec clock p w with
  | (Post rq k, w') =>
      {| state := state w'; language := language w';
         textareaHeight := textareaHeight w'; console := console w';
         requests := requests w' ++ [rq];
         inflight := <[length (requests w') := k]> (inflight w') |}
  | (_, w') => w'
  end.

(** ** The event loop *)

Inductive Event :=
| Submit                                       (* the form's [onSubmit] *)
| KeyDown (key : JSString) (shiftKey : bool)
| Change (value : JSString) (scrollHeight : Z)
| NewChat
| SelectTool (tool : Tool)
| ToggleLanguage
| Settle (rid : nat) (out : Outcome).          (* request [rid] settles *)

(** React renders again after each event, so the handler an event
    reaches is the one of the latest render and closes over [state w]. *)
Definition dispatch (clock : N) (w : World) (ev : Event) : World :=
  match ev with
  | Submit => spawn clock (handleSubmit (state w)) w
  | KeyDown key shiftKey => spawn clock (handleKeyDown (state w) key shiftKey) w
  | Change value scrollHeight => spawn clock (onChange value scrollHeight) w
  | NewChat => spawn clock newChat w
  | SelectTool tool => spawn clock (setActiveTool tool) w
  | ToggleLanguage => spawn clock toggleLanguage w
  | Settle rid out =>
      match inflight w !! rid with
      | Some k => spawn clock (k out) (with_inflight (delete rid) w)
      | None => w
      end
  end.

(** The component before its first render, and once mounted. *)
Definition initial (lng : JSString) : World :=
  {| state := {| messages := []; input := []; isLoading := false;
                 activeTool := chat |};
     language := lng; textareaHeight := Initial; console := [];
     requests := []; inflight := ∅ |}.

Definition mount (clock : N) (lng : JSString) : World :=
  spawn clock mountEffect (initial lng).

End App.

(** ** The view *)

(** Line 333: the [disabled] attribute of the submit button. *)
Definition submitDisabled (s : State) : bool :=
  negb (truthy (JStr (trim (input s)))) || isLoading s.

(** ** Vocabulary of the statements *)

(** What the [try] block of [callGroqAPI] holds once its request has
    settled: the content read from the response, or the exception raised
    by [axios.post] or by the property reads of line 94. *)
Definition settled (out : Outcome) : Exn + JSValue :=
  match out with
  | Fulfilled r => first_choice_content r
  | Rejected m r => inl (AxiosError m r)
  end.

(** The user message of lines 105-109, built at time [clock] from the
    state [s] the handler sees. *)
Definition userTurn (clock : N) (s : State) : Message :=
  {| id := toString clock; content := JStr (trim (input s)); role := user |}.

(** The assistant message of lines 123-127. *)
Definition replyTurn (clock : N) (aiResponse : JSValue) : Message :=
  {| id := toString (clock + 1); content := aiResponse; role := assistant |}.

(** The assistant message of lines 132-136, in language [lng]. *)
Definition errorTurn (resources : JSString -> JSString -> JSString)
    (clock : N) (lng : JSString) : Message :=
  {| id := toString (clock + 1);
     content := JStr (resources lng (js "error.apiError"));
     role := assistant |}.

(** The draft passes the guard of line 103. *)
Definition submittable (s : State) : Prop :=
  trim (input s) <> [] /\ isLoading s = false.

(** A credential is configured: [apiKey] is truthy. *)
Definition configured (apiKey : option JSString) : Prop :=
  truthy (env_value apiKey) = true.

(** The world when [handleSubmit] reaches its [try] block. *)
Definition submitting (clock : N) (w : World) : World :=
  {| state := {| messages := messages (state w) ++ [userTurn clock (state w)];
                 input := [];
                 isLoading := true;
                 activeTool := activeTool (state w) |};
     language := language w;
     textareaHeight := Auto;
     console := console w;
     requests := requests w;
     inflight := inflight w |}.

(** The world once the gateway call of a submission is over: with the
    reply appended, or with the two error reports and the error message. *)
Definition resolved (resources : JSString -> JSString -> JSString)
    (clock : N) (r : Exn + JSValue) (w : World) : World :=
  match r with
  | inr v =>
      perform (SetIsLoading false)
        (perform (SetMessages (Append (replyTurn clock v))) w)
  | inl e =>
      perform (SetIsLoading false)
        (perform (SetMessages (Append (errorTurn resources clock (language w))))
           (perform (Console (ConsoleError
              [LStr (js "Error in chat completion:"); LExn (rethrown e)]))
              (perform (Console (ConsoleError
                 [LStr (js "Error calling Groq API:"); error_detail e])) w)))
  end.

(** The response has a first choice with a message: [data.choices],
    [data.choices[0]] and [data.choices[0].message] can be read, and the
    last is neither [undefined] nor [null]. *)
Definition first_message (r : Response) (m : JSValue) : Prop :=
  exists choices choice,
    field (data r) (js "choices") = inr choices
    /\ index choices 0 = inr choice
    /\ field choice (js "message") = inr m
    /\ nullish m = false.

(** Sample data for the examples: resources that spell out their lookup,
    a credential, a world with a draft, and two responses. *)
Definition sample_resources (lng key : JSString) : JSString :=
  lng ++ js ":" ++ key.

Definition sample_key : option JSString := Some (js "gsk_0123456789").

Definition sample_world : World :=
  {| state := {| messages := []; input := js "  Hi there ";
                 isLoading := false; activeTool := chat |};
     language := js "en"; textareaHeight := Px 24; console := [];
     requests := []; inflight := ∅ |}.

Definition sample_reply (text : JSValue) : Response :=
  {| status := 200;
     data := JObj {[ js "choices" :=
       JArr [JObj {[ js "message" := JObj {[ js "content" := text ]} ]}] ]} |}.

Definition sample_reply_without_content : Response :=
  {| status := 200;
     data := JObj {[ js "choices" :=
       JArr [JObj {[ js "message" :=
         JObj {[ js "role" := JStr (js "assistant") ]} ]}] ]} |}.

(** The worlds the component can be in: mounted, then any events. *)
Inductive reachable (apiKey : option JSString)
    (resources : JSString -> JSString -> JSString) : World -> Prop :=
| reachable_mount clock lng :
    reachable apiKey resources (mount apiKey resources clock lng)
| reachable_dispatch clock w ev :
    reachable apiKey resources w ->
    reachable apiKey resources (dispatch apiKey resources clock w ev).

(** A call of [callGroqAPI] waits on request number [rid]. *)
Definition chat_in_flight (w : World) (rid : nat) : Prop :=
  exists k key userMessages,
    inflight w !! rid = Some k
    /\ requests w !! rid = Some (completion_request key userMessages).

(** A suspended handler that, resumed, only writes one console entry:
    the rest of [testApiKey]. *)
Definition probe_like (resources : JSString -> JSString -> JSString)
    (k : Outcome -> Prog unit) : Prop :=
  forall out,
    exists entry,
      forall clock w,
        exec resources clock (k out) w = (Ret tt, perform (Console entry) w).

(** A suspended handler that, resumed, runs to [resolved]: the rest of
    [handleSubmit]. *)
Definition chat_like (resources : JSString -> JSString -> JSString)
    (k : Outcome -> Prog unit) : Prop :=
  forall clock out w,
    exec resources clock (k out) w
    = (Ret tt, resolved resources clock (settled out) w).

(** The height of the text area is within the cap of line 64. *)
Definition height_ok (h : Height) : Prop :=
  match h with
  | Px z => (z <= 200)%Z
  | Initial | Auto => True
  end.

(** What every reachable world satisfies. *)
Record consistent (apiKey : option JSString)
    (resources : JSString -> JSString -> JSString) (w : World) : Prop := {
  inflight_known : forall rid k,
    inflight w !! rid = Some k ->
    (exists key, requests w !! rid = Some (probe_request key)
                 /\ probe_like resources k)
    \/ (exists key userMessages,
          requests w !! rid = Some (completion_request key userMessages)
          /\ chat_like resources k);
  idle_no_chat :
    isLoading (state w) = false -> forall rid, ~ chat_in_flight w rid;
  loading_chat :
    isLoading (state w) = true -> exists rid, chat_in_flight w rid;
  chat_unique : forall rid rid',
    chat_in_flight w rid -> chat_in_flight w rid' -> rid = rid';
  height_capped : height_ok (textareaHeight w);
  requests_authorized :
    Forall (fun rq => configured apiKey
                      /\ url rq = endpoint
                      /\ headers rq = request_headers (default [] apiKey))
           (requests w)
}.

(** Every character is white space. *)
Definition blank (s : JSString) : Prop :=
  Forall (fun c => is_white_space c = true) s.

(** The roles of [n] complete exchanges: a user turn followed by an
    assistant turn, [n] times. *)
Definition exchanges (n : nat) : list Role :=
  concat (replicate n [user; assistant]).

(** The transcript is a run of complete exchanges, followed by one user
    turn exactly when the loading flag is set. *)
Definition alternating (w : World) : Prop :=
  exists n,
    role <$> messages (state w)
    = exchanges n ++ (if isLoading (state w) then [user] else []).

(** The worlds reached without the "new chat" button. *)
Inductive reachable_without_reset (apiKey : option JSString)
    (resources : JSString -> JSString -> JSString) : World -> Prop :=
| unreset_mount clock lng :
    reachable_without_reset apiKey resources
      (mount apiKey resources clock lng)
| unreset_dispatch clock w ev :
    reachable_without_reset apiKey resources w ->
    ev <> NewChat ->
    reachable_without_reset apiKey resources
      (dispatch apiKey resources clock w ev).

(** Three worlds of a session: mounted, with a draft typed, with the
    draft submitted. *)
Definition sample_mounted : World :=
  mount sample_key sample_resources 5 (js "en").

Definition sample_typed : World :=
  dispatch sample_key sample_resources 6 sample_mounted
    (Change (js "  Hi there ") 24).

Definition sample_sent : World :=
  dispatch sample_key sample_resources 7 sample_typed Submit.

Arguments exec _ {_} _ !_ _ /.

(** ** How [exec] goes through the combinators *)

Section Exec.

Variable resources : JSString -> JSString -> JSString.
Variable clock : N.

(** [exec] is [step] repeated. *)
Lemma exec_step {A} (p p' : Prog A) (w w' : World) :
  step resources clock (p, w) = Some (p', w') ->
  exec resources clock p w = exec resources clock p' w'.
Proof.
  destruct p; simpl; intros H; inversion H; subst; reflexivity.
Qed.

(** What [exec] returns takes no further step. *)
Lemma exec_stuck {A} (p : Prog A) (w : World) :
  step resources clock (exec resources clock p w) = None.
Proof.
  revert w. induction p; intros w; simpl; auto.
Qed.

Lemma exec_bind {A B} (p : Prog A) (f : A -> Prog B) (w : World) :
  exec resources clock (bind p f) w
  = match exec resources clock p w with
    | (Ret a, w') => exec resources clock (f a) w'
    | (q, w') => (bind q f, w')
    end.
Proof.
  revert w. induction p; intros w; simpl; auto.
Qed.

Lemma exec_try_catch {A} (p : Prog A) (h : Exn -> Prog A) (w : World) :
  exec resources clock (try_catch p h) w
  = match exec resources clock p w with
    | (Throw e, w') => exec resources clock (h e) w'
    | (q, w') => (try_catch q h, w')
    end.
Proof.
  revert w. induction p; intros w; simpl; auto.
Qed.

Lemma exec_try_finally {A} (p : Prog A) (f : Prog unit) (w : World) :
  exec resources clock (try_finally p f) w
  = match exec resources clock p w with
    | (Ret a, w') => exec resources clock (bind f (fun _ => Ret a)) w'
    | (Throw e, w') => exec resources clock (bind f (fun _ => Throw e)) w'
    | (q, w') => (try_finally q f, w')
    end.
Proof.
  revert w. induction p; intros w; simpl; auto.
Qed.

End Exec.

(** ** The gateway *)

Section Gateway.

Variable resources : JSString -> JSString -> JSString.

Lemma configured_inv (apiKey : option JSString) :
  configured apiKey -> exists c k, apiKey = Some (c :: k).
Proof.
  destruct apiKey as [[|c k]|]; unfold configured; simpl; try discriminate.
  eauto.
Qed.

Lemma submittable_guard (s : State) :
  submittable s ->
  negb (truthy (JStr (trim (input s)))) || isLoading s = false.
Proof.
  intros [Hne ->]. simpl. destruct (trim (input s)); [congruence | reflexivity].
Qed.

(** With a credential, [callGroqAPI] logs, issues its request and waits;
    once the request settles it returns the content read from the
    response, or logs and throws the error of line 97. *)
Lemma callGroqAPI_configured (apiKey : option JSString)
    (userMessages : list Message) (clock : N) (w : World) :
  configured apiKey ->
  exists k,
    exec resources clock (callGroqAPI apiKey userMessages) w
    = (Post (completion_request (default [] apiKey) userMessages) k,
       perform (Console (ConsoleLog
         [LStr (js "Using API key (first few chars):");
          LStr (substring0 5 (default [] apiKey) ++ js "...")])) w)
    /\ forall clock' out w',
        exec resources clock' (k out) w'
        = match settled out with
          | inr v => (Ret v, w')
          | inl e =>
              (Throw (rethrown e),
               perform (Console (ConsoleError
                 [LStr (js "Error calling Groq API:"); error_detail e])) w')
          end.
Proof.
  intros Hk. destruct (configured_inv _ Hk) as (c & k & ->).
  eexists. split.
  - reflexivity.
  - intros clock' out w'. destruct out as [r | m r]; simpl.
    + destruct (first_choice_content r); reflexivity.
    + reflexivity.
Qed.

(** Without a credential, [callGroqAPI] throws before reaching
    [axios.post]. *)
Lemma callGroqAPI_unconfigured (apiKey : option JSString)
    (userMessages : list Message) (clock : N) (w : World) :
  ~ configured apiKey ->
  exec resources clock (callGroqAPI apiKey userMessages) w
  = (Throw (Error (JStr (js "Failed to get response from Groq API"))),
     perform (Console (ConsoleError
       [LStr (js "Error calling Groq API:");
        LMessage (Error (JStr (js "API key is missing")))]))
       (perform (Console (ConsoleError
          [LStr (js "API key is missing. Please check your .env file.")])) w)).
Proof.
  intros Hk. unfold configured in Hk.
  destruct apiKey as [[|c k]|]; simpl in Hk; try congruence; reflexivity.
Qed.

End Gateway.

(** ** Submitting *)

Section Submission.

Variable resources : JSString -> JSString -> JSString.

Lemma handleSubmit_reaches_try apiKey clock w :
  submittable (state w) ->
  exec resources clock (handleSubmit apiKey (state w)) w
  = exec resources clock
      (handleSubmit_try apiKey (state w) (userTurn clock (state w)))
      (submitting clock w).
Proof.
  intros Hs. unfold handleSubmit.
  rewrite (submittable_guard _ Hs). reflexivity.
Qed.

(** Six effects take a legal submission to the call of the gateway. *)
Lemma handleSubmit_six_steps apiKey clock w :
  submittable (state w) ->
  steps resources clock 6 (handleSubmit apiKey (state w), w)
  = (try_catch_finally
       (aiResponse <- callGroqAPI apiKey
                        (messages (state w) ++ [userTurn clock (state w)]) ;;
        onReply aiResponse)
       onError
       (setIsLoading false),
     submitting clock w).
Proof.
  intros Hs. unfold handleSubmit.
  pose proof (submittable_guard _ Hs) as Hg.
  cbn [steps step bind act]. rewrite Hg. reflexivity.
Qed.

(** A legal submission with a credential: the request goes out and the
    rest of the handler waits; whatever the outcome, and whatever the
    world has become by then, the handler finishes without throwing. *)
Lemma submit_suspends apiKey clock w :
  submittable (state w) -> configured apiKey ->
  exists k,
    dispatch apiKey resources clock w Submit
    = {| state := state (submitting clock w);
         language := language w;
         textareaHeight := Auto;
         console := console w ++ [ConsoleLog
           [LStr (js "Using API key (first few chars):");
            LStr (substring0 5 (default [] apiKey) ++ js "...")]];
         requests := requests w ++
           [completion_request (default [] apiKey)
              (messages (state w) ++ [userTurn clock (state w)])];
         inflight := <[length (requests w) := k]> (inflight w) |}
    /\ forall clock' out w',
        exec resources clock' (k out) w'
        = (Ret tt, resolved resources clock' (settled out) w').
Proof.
  intros Hs Hk.
  destruct (callGroqAPI_configured resources apiKey
              (messages (state w) ++ [userTurn clock (state w)])
              clock (submitting clock w) Hk) as (k & Hexec & Hres).
  eexists. split.
  - unfold dispatch, spawn. rewrite (handleSubmit_reaches_try _ _ _ Hs).
    unfold handleSubmit_try, try_catch_finally.
    rewrite exec_try_finally, exec_try_catch, exec_bind.
    cbv zeta. rewrite Hexec. simpl. reflexivity.
  - intros clock' out w'. cbv beta.
    rewrite exec_try_finally, exec_try_catch, exec_bind, Hres.
    destruct (settled out) as [e | v]; reflexivity.
Qed.

(** A legal submission without a credential is over within the event. *)
Lemma submit_unconfigured apiKey clock w :
  submittable (state w) -> ~ configured apiKey ->
  dispatch apiKey resources clock w Submit
  = perform (SetIsLoading false)
      (perform (SetMessages
                  (Append (errorTurn resources clock (language w))))
         (perform (Console (ConsoleError
            [LStr (js "Error in chat completion:");
             LExn (Error (JStr (js "Failed to get response from Groq API")))]))
            (perform (Console (ConsoleError
               [LStr (js "Error calling Groq API:");
                LMessage (Error (JStr (js "API key is missing")))]))
               (perform (Console (ConsoleError
                  [LStr (js "API key is missing. Please check your .env file.")]))
                  (submitting clock w))))).
Proof.
  intros Hs Hk.
  unfold dispatch, spawn. rewrite (handleSubmit_reaches_try _ _ _ Hs).
  unfold handleSubmit_try, try_catch_finally.
  rewrite exec_try_finally, exec_try_catch, exec_bind.
  cbv zeta. rewrite (callGroqAPI_unconfigured resources _ _ _ _ Hk).
  reflexivity.
Qed.

End Submission.

(** ** Settling an in-flight call *)

Section Settling.

Variable resources : JSString -> JSString -> JSString.

(** The handler suspended by a submission stays in [inflight] under the
    number of its request; in whatever world it is resumed, it runs to
    [resolved]. *)
Lemma settle_submission apiKey clock w :
  submittable (state w) -> configured apiKey ->
  let w1 := dispatch apiKey resources clock w Submit in
  let rid := length (requests w) in
  is_Some (inflight w1 !! rid)
  /\ forall clock' w' out,
      inflight w' !! rid = inflight w1 !! rid ->
      dispatch apiKey resources clock' w' (Settle rid out)
      = resolved resources clock' (settled out) (with_inflight (delete rid) w').
Proof.
  intros Hs Hk w1 rid.
  destruct (submit_suspends resources apiKey clock w Hs Hk) as (k & Hw1 & Hres).
  assert (Hin : inflight w1 !! rid = Some k).
  { subst w1 rid. rewrite Hw1. simpl. apply lookup_insert_eq. }
  split; [rewrite Hin; eauto |].
  intros clock' w' out Hw'. rewrite Hin in Hw'.
  unfold dispatch. rewrite Hw'. unfold spawn. rewrite Hres. reflexivity.
Qed.

Lemma resolved_state clock r w :
  state (resolved resources clock r w)
  = {| messages := messages (state w) ++
         [match r with
          | inr v => replyTurn clock v
          | inl _ => errorTurn resources clock (language w)
          end];
       input := input (state w);
       isLoading := false;
       activeTool := activeTool (state w) |}.
Proof. destruct r; reflexivity. Qed.

Lemma first_message_content r m :
  first_message r m ->
  first_choice_content r = inr (opt_field m (js "content")).
Proof.
  intros (choices & choice & H1 & H2 & H3 & Hm).
  unfold first_choice_content. rewrite H1, H2, H3.
  unfold opt_field. destruct m; simpl in *; congruence.
Qed.

Lemma no_first_message r :
  (forall m, ~ first_message r m) ->
  exists base prop, first_choice_content r = inl (TypeError base prop).
Proof.
  intros Hno. unfold first_choice_content.
  destruct (field (data r) (js "choices")) as [e | choices] eqn:H1.
  { destruct (data r); simpl in H1; inversion H1; eauto. }
  destruct (index choices 0) as [e | choice] eqn:H2.
  { destruct choices; simpl in H2; inversion H2; eauto. }
  destruct (field choice (js "message")) as [e | m] eqn:H3.
  { destruct choice; simpl in H3; inversion H3; eauto. }
  destruct (nullish m) eqn:Hm.
  - destruct m; simpl in Hm; try discriminate; simpl; eauto.
  - exfalso. apply (Hno m). exists choices, choice. auto.
Qed.

End Settling.

(** ** The claims *)

Section Claims.

Variable apiKey : option JSString.
Variable resources : JSString -> JSString -> JSString.

(** C1.  A submission that passes the guard (draft not empty once
    trimmed, not loading) performs, in this order and before the gateway
    is called: it appends a user turn whose content is the trimmed draft,
    it clears the draft to the empty string, it sets the loading flag.
    Effects are counted from the start of [handleSubmit]: the third
    appends the turn, the fourth clears the draft, the fifth sets the
    flag; after the sixth the handler stands before the call of
    [callGroqAPI], and neither the console nor the list of requests has
    been touched. *)
Theorem handleSubmit_enters_submitting clock w :
  submittable (state w) ->
  let turn := userTurn clock (state w) in
  let run n := steps resources clock n (handleSubmit apiKey (state w), w) in
  content turn = JStr (trim (input (state w))) /\ role turn = user
  /\ state (run 2%nat).2 = state w
  /\ state (run 3%nat).2
     = {| messages := messages (state w) ++ [turn];
          input := input (state w);
          isLoading := false;
          activeTool := activeTool (state w) |}
  /\ state (run 4%nat).2
     = {| messages := messages (state w) ++ [turn];
          input := [];
          isLoading := false;
          activeTool := activeTool (state w) |}
  /\ state (run 5%nat).2
     = {| messages := messages (state w) ++ [turn];
          input := [];
          isLoading := true;
          activeTool := activeTool (state w) |}
  /\ run 6%nat
     = (try_catch_finally
          (aiResponse <- callGroqAPI apiKey (messages (state w) ++ [turn]) ;;
           onReply aiResponse)
          onError
          (setIsLoading false),
        submitting clock w)
  /\ console (run 6%nat).2 = console w
  /\ requests (run 6%nat).2 = requests w
  /\ inflight (run 6%nat).2 = inflight w.
Proof.
  intros Hs turn run. subst run. unfold handleSubmit.
  pose proof (submittable_guard _ Hs) as Hg.
  destruct Hs as [_ Hl].
  cbn [steps step bind act].
  rewrite Hg. cbn [steps step bind Date_now].
  unfold perform, with_state, submitting. simpl.
  rewrite Hl. destruct (state w); simpl.
  repeat split; reflexivity.
Qed.

(** C2.  On a legal submission the gateway is called on the whole
    transcript as it stands once the user turn is appended; with a
    credential, the request that leaves carries the role and content of
    every turn of that transcript, in the same order (the i-th pair sent
    is the i-th turn) and nothing else. *)
Theorem gateway_receives_whole_transcript clock w :
  submittable (state w) ->
  let at_call := steps resources clock 6 (handleSubmit apiKey (state w), w) in
  let w1 := dispatch apiKey resources clock w Submit in
  messages (state at_call.2)
  = messages (state w) ++ [userTurn clock (state w)]
  /\ at_call.1
     = try_catch_finally
         (aiResponse <- callGroqAPI apiKey (messages (state at_call.2)) ;;
          onReply aiResponse)
         onError
         (setIsLoading false)
  /\ (configured apiKey ->
      messages (state w1) = messages (state at_call.2)
      /\ exists rq,
           requests w1 = requests w ++ [rq]
           /\ req_messages rq
              = map (fun m => (role m, content m)) (messages (state w1))
           /\ length (req_messages rq) = length (messages (state w1))
           /\ forall i : nat,
                req_messages rq !! i
                = (fun m => (role m, content m)) <$> messages (state w1) !! i).
Proof.
  intros Hs at_call w1. subst at_call.
  rewrite (handleSubmit_six_steps resources apiKey clock w Hs).
  split; [reflexivity |]. split; [reflexivity |].
  intros Hk.
  destruct (submit_suspends resources apiKey clock w Hs Hk) as (k & Hw1 & _).
  fold w1 in Hw1. rewrite Hw1. split; [reflexivity |].
  eexists. split; [reflexivity |].
  split; [reflexivity |]. split.
  - apply length_map.
  - intros i. apply list_lookup_fmap.
Qed.

(** C4.  Submitting, by the form or by the Enter key, while the trimmed
    draft is empty or while loading changes nothing at all: transcript,
    draft, flag, console, requests and suspended calls are as before. *)
Theorem inert_submit clock w :
  trim (input (state w)) = [] \/ isLoading (state w) = true ->
  dispatch apiKey resources clock w Submit = w
  /\ dispatch apiKey resources clock w (KeyDown (js "Enter") false) = w.
Proof.
  intros H.
  assert (Hg : negb (truthy (JStr (trim (input (state w)))))
               || isLoading (state w) = true).
  { destruct H as [-> | ->]; [reflexivity | apply orb_true_r]. }
  unfold dispatch, spawn, handleKeyDown, handleSubmit.
  rewrite Hg. split; reflexivity.
Qed.

(** C7.  "New chat" leaves an empty transcript and an empty draft,
    whatever the world was. *)
Theorem newChat_resets clock w :
  messages (state (dispatch apiKey resources clock w NewChat)) = []
  /\ input (state (dispatch apiKey resources clock w NewChat)) = [].
Proof. split; reflexivity. Qed.

(** C3.  Every failure of the gateway ends in exactly one more assistant
    turn whose content is the resource ["error.apiError"] of the language
    then active, whatever the error was, and in a loading flag that is
    false: without a credential (the call fails within the submission),
    when the request is rejected without a response (network), when it is
    rejected with one (upstream status), and when the response has no
    first choice with a message.  The flag is false after every outcome,
    success included. *)
Theorem gateway_failure_appends_error_turn clock w :
  submittable (state w) ->
  let w1 := dispatch apiKey resources clock w Submit in
  let rid := length (requests w) in
  (~ configured apiKey ->
     messages (state w1)
     = messages (state w)
       ++ [userTurn clock (state w); errorTurn resources clock (language w)]
     /\ isLoading (state w1) = false)
  /\ (configured apiKey ->
      forall clock' w' out,
        inflight w' !! rid = inflight w1 !! rid ->
        let w2 := dispatch apiKey resources clock' w' (Settle rid out) in
        isLoading (state w2) = false
        /\ (forall m, out = Rejected m None ->
              messages (state w2)
              = messages (state w')
                ++ [errorTurn resources clock' (language w')])
        /\ (forall m r, out = Rejected m (Some r) ->
              messages (state w2)
              = messages (state w')
                ++ [errorTurn resources clock' (language w')])
        /\ (forall r e, out = Fulfilled r -> first_choice_content r = inl e ->
              messages (state w2)
              = messages (state w')
                ++ [errorTurn resources clock' (language w')])).
Proof.
  intros Hs w1 rid. split.
  - intros Hk. subst w1. rewrite (submit_unconfigured resources _ _ _ Hs Hk).
    simpl. rewrite <- app_assoc. split; reflexivity.
  - intros Hk clock' w' out Hin w2.
    destruct (settle_submission resources apiKey clock w Hs Hk) as [_ Hset].
    subst w2. unfold rid, w1 in *.
    rewrite (Hset clock' w' out Hin), resolved_state. simpl.
    split; [reflexivity |]. split; [| split].
    + intros m ->. reflexivity.
    + intros m r ->. reflexivity.
    + intros r e -> He. simpl. rewrite He. reflexivity.
Qed.

(** C5.  When the request of a submission is fulfilled and the content
    [v] is read from the response, exactly one assistant turn is appended
    and its content is [v] itself; if nothing happened in between, the
    transcript is the old one, the user turn, then that turn. *)
Theorem gateway_success_appends_reply clock w :
  submittable (state w) -> configured apiKey ->
  let w1 := dispatch apiKey resources clock w Submit in
  let rid := length (requests w) in
  forall clock' r v,
    first_choice_content r = inr v ->
    (forall w',
       inflight w' !! rid = inflight w1 !! rid ->
       messages (state (dispatch apiKey resources clock' w'
                          (Settle rid (Fulfilled r))))
       = messages (state w')
         ++ [{| id := toString (clock' + 1); content := v;
                role := assistant |}])
    /\ messages (state (dispatch apiKey resources clock' w1
                          (Settle rid (Fulfilled r))))
       = messages (state w)
         ++ [userTurn clock (state w);
             {| id := toString (clock' + 1); content := v;
                role := assistant |}].
Proof.
  intros Hs Hk w1 rid clock' r v Hv.
  destruct (settle_submission resources apiKey clock w Hs Hk) as [_ Hset].
  assert (Hgen : forall w',
    inflight w' !! rid = inflight w1 !! rid ->
    messages (state (dispatch apiKey resources clock' w'
                       (Settle rid (Fulfilled r))))
    = messages (state w') ++ [replyTurn clock' v]).
  { intros w' Hin. rewrite (Hset clock' w' _ Hin), resolved_state.
    simpl. rewrite Hv. reflexivity. }
  split; [exact Hgen |].
  rewrite (Hgen w1 eq_refl).
  destruct (submit_suspends resources apiKey clock w Hs Hk) as (k & Hw1 & _).
  fold w1 in Hw1. rewrite Hw1. simpl. rewrite <- app_assoc. reflexivity.
Qed.

(** C6.  Without a credential, [callGroqAPI] ends by throwing, not at a
    request: it reports the missing key on the console, and the error it
    throws is the one of line 97.  No request is issued and no call is
    left in flight, by the gateway or by a submission that calls it. *)
Theorem missing_credential_fails_fast clock userMessages w :
  ~ configured apiKey ->
  (exists w',
     exec resources clock (callGroqAPI apiKey userMessages) w
     = (Throw (Error (JStr (js "Failed to get response from Groq API"))), w')
     /\ console w'
        = console w
          ++ [ConsoleError
                [LStr (js "API key is missing. Please check your .env file.")];
              ConsoleError
                [LStr (js "Error calling Groq API:");
                 LMessage (Error (JStr (js "API key is missing")))]]
     /\ requests w' = requests w
     /\ inflight w' = inflight w
     /\ state w' = state w)
  /\ requests (dispatch apiKey resources clock w Submit) = requests w
  /\ inflight (dispatch apiKey resources clock w Submit) = inflight w.
Proof.
  intros Hk. split.
  - eexists. split; [apply (callGroqAPI_unconfigured resources _ _ _ _ Hk) |].
    simpl. rewrite <- app_assoc. destruct (state w). repeat split.
  - destruct (negb (truthy (JStr (trim (input (state w)))))
              || isLoading (state w)) eqn:Hg.
    + unfold dispatch, spawn, handleSubmit. rewrite Hg. split; reflexivity.
    + assert (Hs : submittable (state w)).
      { apply orb_false_iff in Hg as [Ht Hl]. split; [| exact Hl].
        intros E. rewrite E in Ht. discriminate. }
      rewrite (submit_unconfigured resources _ _ _ Hs Hk).
      split; reflexivity.
Qed.

(** C8, as the code has it.  With a credential, [callGroqAPI] issues its
    request; when the response has a first choice with a message it
    returns whatever that message holds as [content], [undefined] when it
    holds none; when the response has no first choice with a message it
    throws the error of line 97 with the fallback text, the same error as
    for a request that got no response. *)
Theorem gateway_reads_first_choice clock userMessages w :
  configured apiKey ->
  exists k,
    (exec resources clock (callGroqAPI apiKey userMessages) w).1
    = Post (completion_request (default [] apiKey) userMessages) k
    /\ forall clock' w' r,
        (forall m, first_message r m ->
           exec resources clock' (k (Fulfilled r)) w'
           = (Ret (opt_field m (js "content")), w'))
        /\ ((forall m, ~ first_message r m) ->
            (exec resources clock' (k (Fulfilled r)) w').1
            = Throw (Error (JStr (js "Failed to get response from Groq API")))
            /\ forall msg,
                (exec resources clock' (k (Rejected msg None)) w').1
                = (exec resources clock' (k (Fulfilled r)) w').1).
Proof.
  intros Hk.
  destruct (callGroqAPI_configured resources apiKey userMessages clock w Hk)
    as (k & Hexec & Hres).
  exists k. split; [rewrite Hexec; reflexivity |].
  intros clock' w' r. split.
  - intros m Hm. rewrite Hres. simpl.
    rewrite (first_message_content r m Hm). reflexivity.
  - intros Hno. destruct (no_first_message r Hno) as (base & prop & He).
    split.
    + rewrite Hres. simpl. rewrite He. reflexivity.
    + intros msg. rewrite !Hres. simpl. rewrite He. reflexivity.
Qed.

(** C9.  "New chat" during a call does not cancel it: the suspended
    handler and its request stay, and when the request settles the
    handler appends its assistant turn, reply or error message, to the
    transcript that was emptied, which then holds that turn alone. *)
Theorem newChat_does_not_cancel clock clock1 clock2 w out :
  submittable (state w) -> configured apiKey ->
  let rid := length (requests w) in
  let w1 := dispatch apiKey resources clock w Submit in
  let w2 := dispatch apiKey resources clock1 w1 NewChat in
  let w3 := dispatch apiKey resources clock2 w2 (Settle rid out) in
  messages (state w2) = []
  /\ is_Some (inflight w2 !! rid)
  /\ inflight w2 = inflight w1
  /\ requests w2 = requests w1
  /\ isLoading (state w2) = true
  /\ exists turn,
       messages (state w3) = [turn]
       /\ role turn = assistant
       /\ content turn
          = match settled out with
            | inr v => v
            | inl _ => JStr (resources (language w) (js "error.apiError"))
            end.
Proof.
  intros Hs Hk rid w1 w2 w3.
  destruct (settle_submission resources apiKey clock w Hs Hk) as [Hin Hset].
  fold w1 rid in Hin, Hset.
  destruct (submit_suspends resources apiKey clock w Hs Hk) as (k & Hw1 & _).
  fold w1 in Hw1.
  assert (H2 : w2 = perform (SetInput [])
                      (perform (SetMessages (Replace [])) w1)) by reflexivity.
  assert (Hfl : inflight w2 = inflight w1) by (rewrite H2; reflexivity).
  split; [reflexivity |]. split; [rewrite Hfl; exact Hin |].
  split; [exact Hfl |]. split; [rewrite H2; reflexivity |].
  split; [rewrite H2, Hw1; reflexivity |].
  subst w3. rewrite (Hset clock2 w2 out) by (rewrite Hfl; reflexivity).
  assert (Hl : language w2 = language w) by (rewrite H2, Hw1; reflexivity).
  rewrite resolved_state.
  change (language (with_inflight (delete rid) w2)) with (language w2).
  change (messages (state (with_inflight (delete rid) w2))) with (@nil Message).
  rewrite Hl. eexists. split; [reflexivity |].
  destruct (settled out); split; reflexivity.
Qed.

(** C10.  With a credential, mounting the component issues one request:
    to the completions endpoint, with the single user message "Hello" and
    at most 10 tokens.  The transcript, the draft and the flag are the
    initial ones, and when that request settles, in any world and with
    any outcome, nothing changes but the console, which gets one entry. *)
Theorem startup_probe clock lng :
  configured apiKey ->
  let w0 := mount apiKey resources clock lng in
  (exists rq,
     requests w0 = [rq]
     /\ url rq = js "https://api.groq.com/v1/chat/completions"
     /\ req_messages rq = [(user, JStr (js "Hello"))]
     /\ max_tokens rq = 10%Z)
  /\ state w0 = state (initial lng)
  /\ is_Some (inflight w0 !! 0%nat)
  /\ forall clock' w out,
       inflight w !! 0%nat = inflight w0 !! 0%nat ->
       let w' := dispatch apiKey resources clock' w (Settle 0 out) in
       state w' = state w
       /\ requests w' = requests w
       /\ inflight w' = delete 0%nat (inflight w)
       /\ language w' = language w
       /\ textareaHeight w' = textareaHeight w
       /\ exists entry, console w' = console w ++ [entry].
Proof.
  intros Hk w0. destruct (configured_inv _ Hk) as (c & k & ->).
  split; [eexists; split; [reflexivity | repeat split] |].
  split; [reflexivity |].
  split; [eexists; reflexivity |].
  intros clock' w out Hin w'. subst w'.
  unfold dispatch. rewrite Hin. subst w0. simpl.
  destruct out as [r | m r]; simpl; repeat split; eexists; reflexivity.
Qed.

End Claims.

(** ** The claims on sample data *)

Lemma sample_submittable : submittable (state sample_world).
Proof. split; [discriminate | reflexivity]. Defined.

Lemma sample_configured : configured sample_key.
Proof. reflexivity. Defined.

Lemma none_unconfigured : ~ configured None.
Proof. unfold configured. simpl. discriminate. Defined.

Example trim_draft : trim (js "  Hi there ") = js "Hi there".
Proof. reflexivity. Qed.

(** A no-break space and a line feed are trimmed like a space. *)
Example trim_unicode : trim [0xA0; 0x0A; 0x61; 0x20; 0x62; 0x3000] = [0x61; 0x20; 0x62].
Proof. reflexivity. Qed.

Example trim_blank : trim (js "   ") = [].
Proof. reflexivity. Qed.

Example toString_clock : toString 1700000000000 = js "1700000000000".
Proof. reflexivity. Qed.

Example first_choice_content_hello :
  first_choice_content (sample_reply (JStr (js "Hello!")))
  = inr (JStr (js "Hello!")).
Proof. vm_compute. reflexivity. Qed.

Example first_choice_content_no_choices :
  first_choice_content {| status := 200; data := JObj ∅ |}
  = inl (TypeError JUndefined (js "0")).
Proof. vm_compute. reflexivity. Qed.

Lemma handleSubmit_enters_submitting_witness :
  submittable (state sample_world)
  /\ state (steps sample_resources 7 5
             (handleSubmit sample_key (state sample_world), sample_world)).2
     = {| messages := [{| id := js "7"; content := JStr (js "Hi there");
                          role := user |}];
          input := []; isLoading := true; activeTool := chat |}.
Proof.
  split; [exact sample_submittable |].
  exact (proj1 (proj2 (proj2 (proj2 (proj2 (proj2
    (handleSubmit_enters_submitting sample_key sample_resources 7
       sample_world sample_submittable))))))).
Defined.

Lemma gateway_receives_whole_transcript_witness :
  submittable (state sample_world)
  /\ configured sample_key
  /\ exists rq,
       requests (dispatch sample_key sample_resources 7 sample_world Submit)
       = [rq]
       /\ req_messages rq = [(user, JStr (js "Hi there"))].
Proof.
  split; [exact sample_submittable |]. split; [exact sample_configured |].
  destruct (proj2 (proj2 (gateway_receives_whole_transcript sample_key
              sample_resources 7 sample_world sample_submittable))
              sample_configured) as (_ & rq & Hrq & Hm & _).
  exists rq. split; [exact Hrq | exact Hm].
Defined.

Lemma gateway_failure_appends_error_turn_witness :
  submittable (state sample_world)
  /\ (content <$> messages (state
        (dispatch None sample_resources 7 sample_world Submit)))
     = [JStr (js "Hi there"); JStr (js "en:error.apiError")]
  /\ (content <$> messages (state
        (dispatch sample_key sample_resources 9
           (dispatch sample_key sample_resources 7 sample_world Submit)
           (Settle 0 (Rejected (js "Network Error") None)))))
     = [JStr (js "Hi there"); JStr (js "en:error.apiError")].
Proof.
  split; [exact sample_submittable |]. split.
  - exact (f_equal (fmap content)
      (proj1 (proj1 (gateway_failure_appends_error_turn None
         sample_resources 7 sample_world sample_submittable)
         none_unconfigured))).
  - exact (f_equal (fmap content)
      (proj1 (proj2 (proj2 (gateway_failure_appends_error_turn sample_key
         sample_resources 7 sample_world sample_submittable) sample_configured
         9 _ (Rejected (js "Network Error") None) eq_refl)) _ eq_refl)).
Defined.

Lemma inert_submit_witness :
  trim (input (state (initial (js "en")))) = []
  /\ dispatch sample_key sample_resources 7 (initial (js "en")) Submit
     = initial (js "en").
Proof.
  split; [reflexivity |].
  exact (proj1 (inert_submit sample_key sample_resources 7 (initial (js "en"))
                  (or_introl eq_refl))).
Defined.

Lemma gateway_success_appends_reply_witness :
  first_choice_content (sample_reply (JStr (js "Hello!")))
  = inr (JStr (js "Hello!"))
  /\ messages (state
       (dispatch sample_key sample_resources 9
          (dispatch sample_key sample_resources 7 sample_world Submit)
          (Settle 0 (Fulfilled (sample_reply (JStr (js "Hello!")))))))
     = [{| id := js "7"; content := JStr (js "Hi there"); role := user |};
        {| id := js "10"; content := JStr (js "Hello!"); role := assistant |}].
Proof.
  assert (H : first_choice_content (sample_reply (JStr (js "Hello!")))
              = inr (JStr (js "Hello!"))) by (vm_compute; reflexivity).
  split; [exact H |].
  exact (proj2 (gateway_success_appends_reply sample_key sample_resources 7
                  sample_world sample_submittable sample_configured
                  9 _ _ H)).
Defined.

Lemma missing_credential_fails_fast_witness :
  ~ configured None
  /\ requests (dispatch None sample_resources 7 sample_world Submit) = [].
Proof.
  split; [exact none_unconfigured |].
  exact (proj1 (proj2 (missing_credential_fails_fast None sample_resources 7
                         [] sample_world none_unconfigured))).
Defined.

Lemma sample_reply_first_message :
  first_message (sample_reply (JStr (js "Hello!")))
                (JObj {[ js "content" := JStr (js "Hello!") ]}).
Proof.
  exists (JArr [JObj {[ js "message" :=
                        JObj {[ js "content" := JStr (js "Hello!") ]} ]}]),
         (JObj {[ js "message" :=
                    JObj {[ js "content" := JStr (js "Hello!") ]} ]}).
  repeat split; vm_compute; reflexivity.
Defined.

Lemma empty_reply_no_first_message :
  forall m, ~ first_message {| status := 200; data := JObj ∅ |} m.
Proof.
  intros m (choices & choice & H1 & H2 & _).
  vm_compute in H1. inversion H1; subst. vm_compute in H2. discriminate.
Defined.

Lemma gateway_reads_first_choice_witness :
  configured sample_key
  /\ exists k,
       (exec sample_resources 7 (callGroqAPI sample_key []) sample_world).1
       = Post (completion_request (js "gsk_0123456789") []) k
       /\ exec sample_resources 9
            (k (Fulfilled (sample_reply (JStr (js "Hello!"))))) sample_world
          = (Ret (JStr (js "Hello!")), sample_world)
       /\ (exec sample_resources 9
             (k (Fulfilled {| status := 200; data := JObj ∅ |}))
             sample_world).1
          = Throw (Error (JStr (js "Failed to get response from Groq API"))).
Proof.
  split; [exact sample_configured |].
  destruct (gateway_reads_first_choice sample_key sample_resources 7 []
              sample_world sample_configured) as (k & Hk & Hres).
  exists k. split; [exact Hk |]. split.
  - exact (proj1 (Hres 9 sample_world _) _ sample_reply_first_message).
  - exact (proj1 (proj2 (Hres 9 sample_world _) empty_reply_no_first_message)).
Defined.

Lemma newChat_does_not_cancel_witness :
  submittable (state sample_world)
  /\ configured sample_key
  /\ exists turn,
       messages (state
         (dispatch sample_key sample_resources 9
            (dispatch sample_key sample_resources 8
               (dispatch sample_key sample_resources 7 sample_world Submit)
               NewChat)
            (Settle 0 (Fulfilled (sample_reply (JStr (js "Hello!")))))))
       = [turn]
       /\ role turn = assistant.
Proof.
  split; [exact sample_submittable |]. split; [exact sample_configured |].
  destruct (newChat_does_not_cancel sample_key sample_resources 7 8 9
              sample_world (Fulfilled (sample_reply (JStr (js "Hello!"))))
              sample_submittable sample_configured)
    as (_ & _ & _ & _ & _ & turn & Ht & Hr & _).
  exists turn. split; [exact Ht | exact Hr].
Defined.

Lemma startup_probe_witness :
  configured sample_key
  /\ state (mount sample_key sample_resources 7 (js "en"))
     = state (initial (js "en")).
Proof.
  split; [exact sample_configured |].
  exact (proj1 (proj2 (startup_probe sample_key sample_resources 7 (js "en")
                         sample_configured))).
Defined.

(** C8 as the specification states it does not hold: the fulfilled
    response [sample_reply_without_content] has a first choice whose
    message holds no [content]; the gateway does not fail on it, it
    returns [undefined], and the submission stores [undefined] as the
    content of the assistant turn.  And where the gateway does fail on a
    response, here one without [choices], what it throws is what it
    throws when the request got no response. *)
Lemma gateway_returns_undefined_content :
  let r := sample_reply_without_content in
  (exists choices choice o,
     field (data r) (js "choices") = inr choices
     /\ index choices 0 = inr choice
     /\ field choice (js "message") = inr (JObj o)
     /\ o !! js "content" = None)
  /\ match exec sample_resources 7 (callGroqAPI sample_key []) sample_world with
     | (Post _ k, _) =>
         exec sample_resources 9 (k (Fulfilled r)) sample_world
         = (Ret JUndefined, sample_world)
     | _ => False
     end
  /\ (content <$> messages (state
        (dispatch sample_key sample_resources 9
           (dispatch sample_key sample_resources 7 sample_world Submit)
           (Settle 0 (Fulfilled r)))))
     = [JStr (js "Hi there"); JUndefined]
  /\ match exec sample_resources 7 (callGroqAPI sample_key []) sample_world with
     | (Post _ k, _) =>
         (exec sample_resources 9
            (k (Fulfilled {| status := 200; data := JObj ∅ |}))
            sample_world).1
         = (exec sample_resources 9
              (k (Rejected (js "Network Error") None)) sample_world).1
     | _ => False
     end.
Proof.
  split; [| split; [| split]].
  - do 3 eexists. repeat split; vm_compute; reflexivity.
  - vm_compute. reflexivity.
  - vm_compute. reflexivity.
  - vm_compute. reflexivity.
Qed.

(** ** Trimming *)

Lemma trimStart_suffix (s : JSString) :
  exists pre, s = pre ++ trimStart s /\ blank pre.
Proof.
  induction s as [| c s IH]; simpl.
  - exists []. split; [reflexivity | constructor].
  - destruct (is_white_space c) eqn:Hc.
    + destruct IH as (pre & Hs & Hpre).
      exists (c :: pre). split; [simpl; f_equal; exact Hs | constructor; assumption].
    + exists []. split; [reflexivity | constructor].
Qed.

Lemma trimStart_head (s : JSString) (c : N) (r : JSString) :
  trimStart s = c :: r -> is_white_space c = false.
Proof.
  induction s as [| a s IH]; simpl; [discriminate |].
  destruct (is_white_space a) eqn:Ha; [exact IH |].
  intros H. inversion H; subst. exact Ha.
Qed.

Lemma trimStart_blank (s : JSString) : blank s <-> trimStart s = [].
Proof.
  split.
  - induction 1 as [| c s Hc _ IH]; simpl; [reflexivity |].
    rewrite Hc. exact IH.
  - intros H. destruct (trimStart_suffix s) as (pre & Hs & Hpre).
    rewrite H, app_nil_r in Hs. subst. exact Hpre.
Qed.

Lemma trimStart_fixed (s : JSString) :
  (forall c, head s = Some c -> is_white_space c = false) ->
  trimStart s = s.
Proof.
  destruct s as [| c s]; simpl; [reflexivity |].
  intros H. rewrite (H c eq_refl). reflexivity.
Qed.

Lemma blank_rev (s : JSString) : blank (rev s) <-> blank s.
Proof.
  unfold blank. rewrite !Forall_forall.
  split; intros H c Hc; apply H.
  - apply list_elem_of_In, in_rev. rewrite rev_involutive.
    apply list_elem_of_In. exact Hc.
  - apply list_elem_of_In, in_rev, list_elem_of_In. exact Hc.
Qed.

Lemma trim_blank_iff (s : JSString) : trim s = [] <-> blank s.
Proof.
  unfold trim, trimEnd. split.
  - intros H. apply (f_equal (@rev N)) in H.
    rewrite rev_involutive in H. simpl in H.
    apply (proj2 (trimStart_blank _)) in H.
    apply (proj1 (blank_rev _)) in H.
    destruct (trimStart s) as [| c r] eqn:E.
    + apply trimStart_blank. exact E.
    + apply trimStart_head in E. unfold blank in H.
      inversion H; subst. congruence.
  - intros H. apply trimStart_blank in H. rewrite H. reflexivity.
Qed.

Lemma last_rev (s : JSString) : last (rev s) = head s.
Proof.
  destruct s as [| c s]; simpl; [reflexivity |]. apply last_snoc.
Qed.

Lemma head_rev (s : JSString) : head (rev s) = last s.
Proof.
  rewrite <- (rev_involutive s) at 2. symmetry. apply last_rev.
Qed.

(** What [trim] returns neither starts nor ends with white space. *)
Lemma trim_ends (s : JSString) (c : N) :
  head (trim s) = Some c \/ last (trim s) = Some c ->
  is_white_space c = false.
Proof.
  unfold trim, trimEnd. rewrite head_rev, last_rev.
  intros [H | H].
  - destruct (trimStart_suffix (rev (trimStart s))) as (pre & Hs & _).
    destruct (trimStart (rev (trimStart s))) as [| a r] eqn:E;
      [discriminate |].
    assert (Hl : last (rev (trimStart s)) = Some c).
    { rewrite Hs, last_app, H. reflexivity. }
    rewrite last_rev in Hl.
    destruct (trimStart s) as [| b u] eqn:Eb; [discriminate |].
    simpl in Hl. inversion Hl; subst. exact (trimStart_head _ _ _ Eb).
  - destruct (trimStart (rev (trimStart s))) as [| a r] eqn:E;
      [discriminate |].
    simpl in H. inversion H; subst. exact (trimStart_head _ _ _ E).
Qed.

Lemma trim_idempotent (s : JSString) : trim (trim s) = trim s.
Proof.
  pose proof (trim_ends s) as He.
  set (u := trim s) in *. unfold trim, trimEnd.
  rewrite (trimStart_fixed u) by (intros c Hc; apply He; auto).
  rewrite (trimStart_fixed (rev u)), rev_involutive; [reflexivity |].
  intros c Hc. rewrite head_rev in Hc. apply He. auto.
Qed.

(** [trim] only removes white space, and only at the two ends. *)
Lemma trim_middle (s : JSString) :
  exists pre post, s = pre ++ trim s ++ post /\ blank pre /\ blank post.
Proof.
  destruct (trimStart_suffix s) as (pre & Hs & Hpre).
  destruct (trimStart_suffix (rev (trimStart s))) as (tail & Ht & Htail).
  exists pre, (rev tail). split; [| split].
  - unfold trim, trimEnd. rewrite <- rev_app_distr, <- Ht, rev_involutive.
    exact Hs.
  - exact Hpre.
  - apply blank_rev. exact Htail.
Qed.

(** ** What every reachable world satisfies *)

Section Invariant.

Variable apiKey : option JSString.
Variable resources : JSString -> JSString -> JSString.

Lemma submitDisabled_false (s : State) :
  submitDisabled s = false <-> submittable s.
Proof.
  unfold submitDisabled, submittable. rewrite orb_false_iff. simpl.
  destruct (trim (input s)); simpl; split; intros [H1 H2]; split;
    congruence.
Qed.

Lemma dispatch_submit_disabled clock w :
  submitDisabled (state w) = true ->
  dispatch apiKey resources clock w Submit = w.
Proof.
  intros H. unfold dispatch, spawn, handleSubmit.
  unfold submitDisabled in H. rewrite H. reflexivity.
Qed.

Lemma dispatch_keydown clock w key shiftKey :
  dispatch apiKey resources clock w (KeyDown key shiftKey)
  = if bool_decide (key = js "Enter") && negb shiftKey
    then dispatch apiKey resources clock w Submit
    else w.
Proof.
  unfold dispatch, handleKeyDown.
  destruct (bool_decide (key = js "Enter") && negb shiftKey); reflexivity.
Qed.

Lemma completion_not_probe key key' userMessages :
  completion_request key userMessages <> probe_request key'.
Proof. discriminate. Qed.

Lemma consistent_frame w w' :
  inflight w' = inflight w -> requests w' = requests w ->
  isLoading (state w') = isLoading (state w) ->
  height_ok (textareaHeight w') ->
  consistent apiKey resources w -> consistent apiKey resources w'.
Proof.
  intros Hi Hr Hl Hh [H1 H2 H3 H4 H5 H6].
  split; unfold chat_in_flight in *; rewrite ?Hi, ?Hr, ?Hl; auto.
Qed.

(** The three ways a request can settle. *)
Lemma settle_cases clock w rid out :
  consistent apiKey resources w ->
  (inflight w !! rid = None
   /\ dispatch apiKey resources clock w (Settle rid out) = w)
  \/ (exists key entry,
        requests w !! rid = Some (probe_request key)
        /\ dispatch apiKey resources clock w (Settle rid out)
           = perform (Console entry) (with_inflight (delete rid) w))
  \/ (chat_in_flight w rid
      /\ dispatch apiKey resources clock w (Settle rid out)
         = resolved resources clock (settled out)
             (with_inflight (delete rid) w)).
Proof.
  intros Hc. unfold dispatch.
  destruct (inflight w !! rid) as [k |] eqn:Hk; [| left; auto].
  right.
  destruct (inflight_known _ _ _ Hc rid k Hk)
    as [(key & Hrq & Hp) | (key & msgs & Hrq & Hp)].
  - left. destruct (Hp out) as (entry & He).
    exists key, entry. split; [exact Hrq |].
    unfold spawn. rewrite He. reflexivity.
  - right. split; [exists k, key, msgs; auto |].
    unfold spawn. rewrite Hp. reflexivity.
Qed.

Lemma chat_in_flight_delete w rid rid' (f : World -> World) :
  inflight (f (with_inflight (delete rid) w)) = delete rid (inflight w) ->
  requests (f (with_inflight (delete rid) w)) = requests w ->
  chat_in_flight (f (with_inflight (delete rid) w)) rid' ->
  rid' <> rid /\ chat_in_flight w rid'.
Proof.
  intros Hi Hr (k & key & msgs & Hk & Hrq).
  rewrite Hi in Hk. rewrite Hr in Hrq.
  apply lookup_delete_Some in Hk as [Hne Hk].
  split; [congruence | exists k, key, msgs; auto].
Qed.

Lemma resolved_frame clock r w :
  inflight (resolved resources clock r w) = inflight w
  /\ requests (resolved resources clock r w) = requests w
  /\ textareaHeight (resolved resources clock r w) = textareaHeight w
  /\ language (resolved resources clock r w) = language w
  /\ input (state (resolved resources clock r w)) = input (state w)
  /\ activeTool (state (resolved resources clock r w)) = activeTool (state w)
  /\ isLoading (state (resolved resources clock r w)) = false.
Proof. destruct r; repeat split. Qed.

Lemma consistent_settle clock w rid out :
  consistent apiKey resources w ->
  consistent apiKey resources
    (dispatch apiKey resources clock w (Settle rid out)).
Proof.
  intros Hc.
  destruct (settle_cases clock w rid out Hc)
    as [[_ ->] | [(key & entry & Hrq & ->) | [Hchat ->]]]; [exact Hc | |].
  - (* the probe settles *)
    pose proof Hc as [H1 H2 H3 H4 H5 H6].
    assert (Hdel : forall r,
      chat_in_flight (perform (Console entry) (with_inflight (delete rid) w)) r
      -> r <> rid /\ chat_in_flight w r).
    { intros r. apply (chat_in_flight_delete w rid r (perform (Console entry)));
        reflexivity. }
    split; simpl; auto.
    + intros r k Hk. apply lookup_delete_Some in Hk as [_ Hk]. auto.
    + intros Hl r Hr. apply Hdel in Hr as [_ Hr]. exact (H2 Hl r Hr).
    + intros Hl. destruct (H3 Hl) as (r & k & key' & msgs & Hk & Hr).
      exists r, k, key', msgs. split; [| exact Hr].
      simpl. apply lookup_delete_Some. split; [| exact Hk].
      intros <-. rewrite Hrq in Hr. inversion Hr.
    + intros r r' Hr Hr'. apply Hdel in Hr as [_ Hr], Hr' as [_ Hr']. eauto.
  - (* a completion call settles *)
    pose proof Hc as [H1 H2 H3 H4 H5 H6].
    destruct (resolved_frame clock (settled out)
                (with_inflight (delete rid) w))
      as (Hi & Hr & Hh & _ & _ & _ & Hl).
    assert (Hdel : forall r,
      chat_in_flight (resolved resources clock (settled out)
                        (with_inflight (delete rid) w)) r
      -> r <> rid /\ chat_in_flight w r).
    { intros r. apply (chat_in_flight_delete w rid r
                         (resolved resources clock (settled out)));
        assumption. }
    split.
    + intros r k. rewrite Hi, Hr. simpl. intros Hk.
      apply lookup_delete_Some in Hk as [_ Hk]. auto.
    + intros _ r Hchat'. apply Hdel in Hchat' as [Hne Hchat'].
      apply Hne. eauto.
    + rewrite Hl. discriminate.
    + intros r r' Hr1 Hr2. apply Hdel in Hr1 as [_ Hr1], Hr2 as [_ Hr2]. eauto.
    + rewrite Hh. exact H5.
    + rewrite Hr. exact H6.
Qed.

Lemma consistent_submit clock w :
  consistent apiKey resources w ->
  consistent apiKey resources (dispatch apiKey resources clock w Submit).
Proof.
  intros Hc.
  destruct (submitDisabled (state w)) eqn:Hd.
  { rewrite (dispatch_submit_disabled _ _ Hd). exact Hc. }
  apply submitDisabled_false in Hd. pose proof Hd as [_ Hl].
  destruct (decide (configured apiKey)) as [Hk | Hk].
  - destruct (submit_suspends resources apiKey clock w Hd Hk)
      as (k & -> & Hres).
    pose proof Hc as [H1 H2 H3 H4 H5 H6].
    assert (Hfresh : forall r k', inflight w !! r = Some k' ->
                       (r < length (requests w))%nat).
    { intros r k' Hr. apply lookup_lt_is_Some.
      destruct (H1 r k' Hr) as [(? & -> & _) | (? & ? & -> & _)]; eauto. }
    assert (Hold : forall r,
      r <> length (requests w) ->
      chat_in_flight
        {| state := state (submitting clock w); language := language w;
           textareaHeight := Auto;
           console := console w ++ [ConsoleLog
             [LStr (js "Using API key (first few chars):");
              LStr (substring0 5 (default [] apiKey) ++ js "...")]];
           requests := requests w ++
             [completion_request (default [] apiKey)
                (messages (state w) ++ [userTurn clock (state w)])];
           inflight := <[length (requests w) := k]> (inflight w) |} r ->
      chat_in_flight w r).
    { intros r Hne (k' & key & msgs & Hk' & Hrq). simpl in Hk', Hrq.
      rewrite lookup_insert_ne in Hk' by congruence.
      rewrite lookup_app_l in Hrq by eauto.
      exists k', key, msgs. auto. }
    split; simpl.
    + intros r k' Hr.
      destruct (decide (r = length (requests w))) as [-> | Hne].
      * rewrite lookup_insert_eq in Hr. inversion Hr; subst k'.
        right. do 2 eexists. split; [| exact Hres].
        rewrite lookup_app_r, Nat.sub_diag by lia. reflexivity.
      * rewrite lookup_insert_ne in Hr by congruence.
        rewrite lookup_app_l by eauto. auto.
    + discriminate.
    + intros _. exists (length (requests w)). do 3 eexists. simpl.
      split; [apply lookup_insert_eq |].
      rewrite lookup_app_r, Nat.sub_diag by lia. reflexivity.
    + intros r r' Hr Hr'.
      destruct (decide (r = length (requests w))) as [-> | Hne];
        destruct (decide (r' = length (requests w))) as [-> | Hne'];
        try reflexivity; exfalso.
      * exact (H2 Hl r' (Hold r' Hne' Hr')).
      * exact (H2 Hl r (Hold r Hne Hr)).
      * exact (H2 Hl r (Hold r Hne Hr)).
    + exact I.
    + apply Forall_app. split; [exact H6 |].
      constructor; [| constructor]. auto.
  - rewrite (submit_unconfigured resources _ _ _ Hd Hk).
    apply (consistent_frame w); try reflexivity; [| exact Hc].
    simpl. symmetry. exact Hl.
Qed.

Lemma mount_configured clock lng :
  configured apiKey ->
  exists k,
    mount apiKey resources clock lng
    = {| state := state (initial lng); language := lng;
         textareaHeight := Initial;
         console := [ConsoleLog
           [LStr (js "API key found (first few chars):");
            LStr (substring0 5 (default [] apiKey) ++ js "...")]];
         requests := [probe_request (default [] apiKey)];
         inflight := <[0%nat := k]> ∅ |}
    /\ probe_like resources k.
Proof.
  intros Hk. destruct (configured_inv _ Hk) as (c & key & ->).
  eexists. split; [reflexivity |].
  intros out. destruct out as [r | m r]; eexists; reflexivity.
Qed.

Lemma mount_unconfigured clock lng :
  ~ configured apiKey ->
  mount apiKey resources clock lng
  = perform (Console (ConsoleError
      [LStr (js "API key is missing! Please check your .env file")]))
      (initial lng).
Proof.
  intros Hk. unfold configured in Hk.
  destruct apiKey as [[| c key] |]; simpl in Hk; try congruence; reflexivity.
Qed.

Lemma consistent_mount clock lng :
  consistent apiKey resources (mount apiKey resources clock lng).
Proof.
  destruct (decide (configured apiKey)) as [Hk | Hk].
  - destruct (mount_configured clock lng Hk) as (k & -> & Hp).
    assert (Hnone : forall r,
      ~ chat_in_flight
          {| state := state (initial lng); language := lng;
             textareaHeight := Initial;
             console := [ConsoleLog
               [LStr (js "API key found (first few chars):");
                LStr (substring0 5 (default [] apiKey) ++ js "...")]];
             requests := [probe_request (default [] apiKey)];
             inflight := <[0%nat := k]> ∅ |} r).
    { intros r (k' & key' & msgs & _ & Hrq). simpl in Hrq.
      destruct r as [| r]; simpl in Hrq; [inversion Hrq | discriminate]. }
    split; simpl.
    + intros r k' Hr. apply lookup_insert_Some in Hr as [[<- <-] | [_ Hr]];
        [| rewrite lookup_empty in Hr; discriminate].
      left. eexists. split; [reflexivity | exact Hp].
    + intros _. exact Hnone.
    + discriminate.
    + intros r r' Hr. destruct (Hnone r Hr).
    + exact I.
    + constructor; [| constructor]. repeat split. exact Hk.
  - rewrite (mount_unconfigured clock lng Hk).
    split; simpl; auto; try discriminate.
    + intros _ r (k & ? & ? & Hr & _). simpl in Hr.
      rewrite lookup_empty in Hr. discriminate.
    + intros r r' (k & ? & ? & Hr & _). simpl in Hr.
      rewrite lookup_empty in Hr. discriminate.
Qed.

Lemma consistent_dispatch clock w ev :
  consistent apiKey resources w ->
  consistent apiKey resources (dispatch apiKey resources clock w ev).
Proof.
  intros Hc. destruct ev as [| key shiftKey | value sh | | tool | | rid out].
  - apply consistent_submit, Hc.
  - rewrite dispatch_keydown.
    destruct (bool_decide (key = js "Enter") && negb shiftKey);
      [apply consistent_submit |]; exact Hc.
  - apply (consistent_frame w); try reflexivity; [| exact Hc].
    simpl. apply Z.le_min_r.
  - apply (consistent_frame w); try reflexivity; [| exact Hc].
    exact (height_capped _ _ _ Hc).
  - apply (consistent_frame w); try reflexivity; [| exact Hc].
    exact (height_capped _ _ _ Hc).
  - apply (consistent_frame w); try reflexivity; [| exact Hc].
    exact (height_capped _ _ _ Hc).
  - apply consistent_settle, Hc.
Qed.

Lemma reachable_consistent w :
  reachable apiKey resources w -> consistent apiKey resources w.
Proof.
  induction 1 as [clock lng | clock w ev _ IH].
  - apply consistent_mount.
  - apply consistent_dispatch, IH.
Qed.

Lemma submit_select_tool clock w tool :
  dispatch apiKey resources clock (perform (SetActiveTool tool) w) Submit
  = perform (SetActiveTool tool) (dispatch apiKey resources clock w Submit).
Proof.
  unfold dispatch, spawn, handleSubmit.
  cbn [perform with_state state input isLoading messages activeTool].
  destruct (negb (truthy (JStr (trim (input (state w)))))
            || isLoading (state w)).
  - reflexivity.
  - destruct apiKey as [[| c key] |]; reflexivity.
Qed.

Lemma resolved_select_tool clock r w tool :
  resolved resources clock r (perform (SetActiveTool tool) w)
  = perform (SetActiveTool tool) (resolved resources clock r w).
Proof. destruct r; reflexivity. Qed.

(** Selecting a tool before or after another event comes to the same. *)
Lemma select_tool_commutes c1 c2 w tool ev :
  consistent apiKey resources w ->
  (forall tool', ev <> SelectTool tool') ->
  dispatch apiKey resources c2
    (dispatch apiKey resources c1 w (SelectTool tool)) ev
  = dispatch apiKey resources c1
      (dispatch apiKey resources c2 w ev) (SelectTool tool).
Proof.
  intros Hc Hev.
  change (dispatch apiKey resources c1 w (SelectTool tool))
    with (perform (SetActiveTool tool) w).
  change (dispatch apiKey resources c1
            (dispatch apiKey resources c2 w ev) (SelectTool tool))
    with (perform (SetActiveTool tool) (dispatch apiKey resources c2 w ev)).
  destruct ev as [| key shiftKey | value sh | | tool' | | rid out].
  - apply submit_select_tool.
  - rewrite !dispatch_keydown.
    destruct (bool_decide (key = js "Enter") && negb shiftKey);
      [apply submit_select_tool | reflexivity].
  - reflexivity.
  - reflexivity.
  - destruct (Hev tool' eq_refl).
  - reflexivity.
  - unfold dispatch.
    change (inflight (perform (SetActiveTool tool) w)) with (inflight w).
    destruct (inflight w !! rid) as [k |] eqn:Hk; [| reflexivity].
    unfold spawn.
    destruct (inflight_known _ _ _ Hc rid k Hk)
      as [(key & _ & Hp) | (key & msgs & _ & Hp)].
    + destruct (Hp out) as (entry & He). rewrite !He. reflexivity.
    + rewrite !Hp.
      change (with_inflight (delete rid) (perform (SetActiveTool tool) w))
        with (perform (SetActiveTool tool) (with_inflight (delete rid) w)).
      rewrite resolved_select_tool. reflexivity.
Qed.

Lemma unreset_reachable w :
  reachable_without_reset apiKey resources w -> reachable apiKey resources w.
Proof. induction 1; constructor; assumption. Qed.

Lemma exchanges_S n : exchanges (S n) = exchanges n ++ [user; assistant].
Proof.
  unfold exchanges. rewrite replicate_S_end, concat_app. reflexivity.
Qed.

Lemma alternating_frame w w' :
  messages (state w') = messages (state w) ->
  isLoading (state w') = isLoading (state w) ->
  alternating w -> alternating w'.
Proof. unfold alternating. intros -> ->. auto. Qed.

Lemma alternating_submit clock w :
  alternating w ->
  alternating (dispatch apiKey resources clock w Submit).
Proof.
  intros Ha. destruct (submitDisabled (state w)) eqn:Hd.
  { rewrite (dispatch_submit_disabled _ _ Hd). exact Ha. }
  apply submitDisabled_false in Hd. pose proof Hd as [_ Hl].
  destruct Ha as (n & Hn). rewrite Hl, app_nil_r in Hn.
  destruct (decide (configured apiKey)) as [Hk | Hk].
  - destruct (submit_suspends resources apiKey clock w Hd Hk) as (k & -> & _).
    exists n. unfold exchanges in *. simpl. rewrite fmap_app, Hn. reflexivity.
  - rewrite (submit_unconfigured resources _ _ _ Hd Hk).
    exists (S n). rewrite exchanges_S. unfold exchanges in *. simpl.
    rewrite !fmap_app, Hn, ?app_nil_r, <- ?app_assoc. reflexivity.
Qed.

Lemma alternating_dispatch clock w ev :
  consistent apiKey resources w -> ev <> NewChat ->
  alternating w ->
  alternating (dispatch apiKey resources clock w ev).
Proof.
  intros Hc Hev Ha.
  destruct ev as [| key shiftKey | value sh | | tool | | rid out].
  - apply alternating_submit, Ha.
  - rewrite dispatch_keydown.
    destruct (bool_decide (key = js "Enter") && negb shiftKey);
      [apply alternating_submit |]; exact Ha.
  - apply (alternating_frame w); [reflexivity | reflexivity | exact Ha].
  - congruence.
  - apply (alternating_frame w); [reflexivity | reflexivity | exact Ha].
  - apply (alternating_frame w); [reflexivity | reflexivity | exact Ha].
  - destruct (settle_cases clock w rid out Hc)
      as [[_ ->] | [(key & entry & _ & ->) | [Hchat ->]]]; [exact Ha | |].
    + apply (alternating_frame w); [reflexivity | reflexivity | exact Ha].
    + assert (Hl : isLoading (state w) = true).
      { destruct (isLoading (state w)) eqn:Hl; [reflexivity |].
        destruct (idle_no_chat _ _ _ Hc Hl rid Hchat). }
      destruct Ha as (n & Hn). rewrite Hl in Hn.
      exists (S n). rewrite resolved_state, exchanges_S.
      unfold exchanges in *. simpl.
      rewrite fmap_app, Hn, ?app_nil_r, <- ?app_assoc. simpl.
      destruct (settled out); reflexivity.
Qed.

End Invariant.

(** ** Further properties of the component *)



Section Extras.

Variable apiKey : option JSString.
Variable resources : JSString -> JSString -> JSString.

(** What a legal submission does to the transcript within its event. *)
Lemma submit_messages clock w :
  submittable (state w) ->
  exists rest,
    messages (state (dispatch apiKey resources clock w Submit))
    = messages (state w) ++ userTurn clock (state w) :: rest
    /\ (length rest <= 1)%nat
    /\ (configured apiKey -> rest = []).
Proof.
  intros Hs. destruct (decide (configured apiKey)) as [Hk | Hk].
  - destruct (submit_suspends resources apiKey clock w Hs Hk) as (k & -> & _).
    exists []. simpl. auto.
  - rewrite (submit_unconfigured resources _ _ _ Hs Hk).
    exists [errorTurn resources clock (language w)]. simpl.
    rewrite <- app_assoc. split; [reflexivity |]. split; [lia | tauto].
Qed.

Lemma submit_changes clock w :
  submittable (state w) ->
  dispatch apiKey resources clock w Submit <> w.
Proof.
  intros Hs E. destruct (submit_messages clock w Hs) as (rest & Hm & _).
  rewrite E in Hm. apply (f_equal length) in Hm.
  rewrite length_app in Hm. simpl in Hm. lia.
Qed.

(** X1.  In every reachable world at most one call of [callGroqAPI] is
    waiting for its request, and the loading flag is true exactly when
    one is. *)
Theorem single_completion_in_flight w :
  reachable apiKey resources w ->
  (forall rid rid',
     chat_in_flight w rid -> chat_in_flight w rid' -> rid = rid')
  /\ (isLoading (state w) = true <-> exists rid, chat_in_flight w rid).
Proof.
  intros Hr. apply reachable_consistent in Hr.
  split; [exact (chat_unique _ _ _ Hr) |]. split.
  - exact (loading_chat _ _ _ Hr).
  - intros (rid & Hc). destruct (isLoading (state w)) eqn:Hl; [reflexivity |].
    destruct (idle_no_chat _ _ _ Hr Hl rid Hc).
Qed.

(** X2.  In every reachable world the height of the text area, when it
    is a number of pixels, is at most 200. *)
Theorem textarea_height_capped w h :
  reachable apiKey resources w ->
  textareaHeight w = Px h -> (h <= 200)%Z.
Proof.
  intros Hr Hh. apply reachable_consistent in Hr.
  pose proof (height_capped _ _ _ Hr) as H. rewrite Hh in H. exact H.
Qed.

(** X3.  Every request the component has issued was issued with a
    credential configured, goes to the completions endpoint, and carries
    the JSON content type and the credential as a bearer token. *)
Theorem requests_authorized_everywhere w rq :
  reachable apiKey resources w ->
  rq ∈ requests w ->
  exists key,
    apiKey = Some key /\ key <> []
    /\ url rq = js "https://api.groq.com/v1/chat/completions"
    /\ headers rq = [(js "Content-Type", js "application/json");
                     (js "Authorization", js "Bearer " ++ key)].
Proof.
  intros Hr Hin. apply reachable_consistent in Hr.
  pose proof (requests_authorized _ _ _ Hr) as H.
  rewrite Forall_forall in H. destruct (H rq Hin) as (Hk & Hu & Hh).
  destruct (configured_inv _ Hk) as (c & key & ->).
  exists (c :: key). repeat split; try assumption. discriminate.
Qed.

(** X4.  Without a credential the component never issues a request and
    never has a call in flight. *)
Theorem unconfigured_never_requests w :
  ~ configured apiKey ->
  reachable apiKey resources w ->
  requests w = [] /\ inflight w = ∅.
Proof.
  intros Hk Hr. apply reachable_consistent in Hr.
  assert (Hrq : requests w = []).
  { pose proof (requests_authorized _ _ _ Hr) as H.
    destruct (requests w); [reflexivity |].
    inversion H as [| ? ? [Hc _] _]. contradiction. }
  split; [exact Hrq |].
  apply map_empty. intros rid.
  destruct (inflight w !! rid) as [k |] eqn:Hrid; [| reflexivity].
  destruct (inflight_known _ _ _ Hr rid k Hrid)
    as [(? & H & _) | (? & ? & H & _)];
    rewrite Hrq in H; discriminate.
Qed.

(** X5.  In a reachable world, the settling of a request, whichever and
    however, issues no request, leaves the draft, the active tool, the
    language and the text area as they are, removes the request from
    those in flight, and appends at most one turn, an assistant one. *)
Theorem settle_frame w clock rid out :
  reachable apiKey resources w ->
  let w' := dispatch apiKey resources clock w (Settle rid out) in
  requests w' = requests w
  /\ inflight w' = delete rid (inflight w)
  /\ input (state w') = input (state w)
  /\ activeTool (state w') = activeTool (state w)
  /\ language w' = language w
  /\ textareaHeight w' = textareaHeight w
  /\ (messages (state w') = messages (state w)
      \/ exists turn,
           messages (state w') = messages (state w) ++ [turn]
           /\ role turn = assistant).
Proof.
  intros Hr w'. subst w'. apply reachable_consistent in Hr.
  destruct (settle_cases apiKey resources clock w rid out Hr)
    as [[Hn ->] | [(key & entry & _ & ->) | [_ ->]]].
  - rewrite delete_id by exact Hn. repeat split; auto.
  - simpl. repeat split; auto.
  - destruct (resolved_frame resources clock (settled out)
                (with_inflight (delete rid) w))
      as (Hi & Hq & Hh & Hl & Hin & Ht & _).
    rewrite Hi, Hq, Hh, Hl, Hin, Ht, resolved_state. simpl.
    repeat split; auto. right. eexists. split; [reflexivity |].
    destruct (settled out); reflexivity.
Qed.

(** X6.  In a reachable world every event but "new chat" keeps the
    transcript as a prefix of the new one and adds at most two turns. *)
Theorem transcript_append_only w clock ev :
  reachable apiKey resources w ->
  ev <> NewChat ->
  exists added,
    messages (state (dispatch apiKey resources clock w ev))
    = messages (state w) ++ added
    /\ (length added <= 2)%nat.
Proof.
  intros Hr Hev.
  assert (Hsub : exists added,
    messages (state (dispatch apiKey resources clock w Submit))
    = messages (state w) ++ added /\ (length added <= 2)%nat).
  { destruct (submitDisabled (state w)) eqn:Hd.
    - rewrite (dispatch_submit_disabled _ _ _ _ Hd).
      exists []. rewrite app_nil_r. simpl. auto.
    - apply submitDisabled_false in Hd.
      destruct (submit_messages clock w Hd) as (rest & -> & Hl & _).
      eexists. split; [reflexivity |]. simpl. lia. }
  destruct ev as [| key shiftKey | value sh | | tool | | rid out].
  - exact Hsub.
  - rewrite dispatch_keydown.
    destruct (bool_decide (key = js "Enter") && negb shiftKey);
      [exact Hsub |].
    exists []. rewrite app_nil_r. simpl. auto.
  - exists []. rewrite app_nil_r. simpl. auto.
  - congruence.
  - exists []. rewrite app_nil_r. simpl. auto.
  - exists []. rewrite app_nil_r. simpl. auto.
  - apply reachable_consistent in Hr.
    destruct (settle_cases apiKey resources clock w rid out Hr)
      as [[_ ->] | [(key & entry & _ & ->) | [_ ->]]].
    + exists []. rewrite app_nil_r. simpl. auto.
    + exists []. rewrite app_nil_r. simpl. auto.
    + rewrite resolved_state. simpl. eexists. split; [reflexivity |].
      simpl. lia.
Qed.

(** X7.  Only a legal submission with a credential issues a request: if
    an event in a reachable world changes the list of requests, the event
    is a submit (by the form, or by Enter without Shift), the draft was
    submittable and a credential is configured; the list then grows by
    the one completion request. *)
Theorem only_submission_requests w clock ev :
  reachable apiKey resources w ->
  requests (dispatch apiKey resources clock w ev) <> requests w ->
  (ev = Submit \/ exists key, ev = KeyDown key false /\ key = js "Enter")
  /\ submittable (state w)
  /\ configured apiKey
  /\ requests (dispatch apiKey resources clock w ev)
     = requests w
       ++ [completion_request (default [] apiKey)
             (messages (state w) ++ [userTurn clock (state w)])].
Proof.
  intros Hr Hne.
  assert (Hsub :
    requests (dispatch apiKey resources clock w Submit) <> requests w ->
    submittable (state w) /\ configured apiKey
    /\ requests (dispatch apiKey resources clock w Submit)
       = requests w
         ++ [completion_request (default [] apiKey)
               (messages (state w) ++ [userTurn clock (state w)])]).
  { intros H. destruct (submitDisabled (state w)) eqn:Hd.
    { rewrite (dispatch_submit_disabled _ _ _ _ Hd) in H. congruence. }
    apply submitDisabled_false in Hd.
    destruct (decide (configured apiKey)) as [Hk | Hk].
    - destruct (submit_suspends resources apiKey clock w Hd Hk)
        as (k & -> & _). auto.
    - rewrite (submit_unconfigured resources _ _ _ Hd Hk) in H.
      simpl in H. congruence. }
  destruct ev as [| key shiftKey | value sh | | tool | | rid out];
    try (simpl in Hne; congruence).
  - split; [auto | exact (Hsub Hne)].
  - rewrite dispatch_keydown in Hne |- *.
    destruct (bool_decide (key = js "Enter")) eqn:Hkey;
      destruct shiftKey; simpl in Hne |- *; try congruence.
    apply bool_decide_eq_true in Hkey.
    split; [right; eauto | exact (Hsub Hne)].
  - exfalso. apply Hne. apply reachable_consistent in Hr.
    destruct (settle_cases apiKey resources clock w rid out Hr)
      as [[_ ->] | [(key & entry & _ & ->) | [_ ->]]]; try reflexivity.
    exact (proj1 (proj2 (resolved_frame resources clock (settled out)
                           (with_inflight (delete rid) w)))).
Qed.

(** X8.  Enter without Shift is a submit; Enter with Shift, and any
    other key, changes nothing. *)
Theorem keydown_submits_or_nothing clock w :
  dispatch apiKey resources clock w (KeyDown (js "Enter") false)
  = dispatch apiKey resources clock w Submit
  /\ (forall key shiftKey,
        key <> js "Enter" \/ shiftKey = true ->
        dispatch apiKey resources clock w (KeyDown key shiftKey) = w).
Proof.
  split; [rewrite dispatch_keydown; reflexivity |].
  intros key shiftKey H. rewrite dispatch_keydown.
  destruct H as [H | ->].
  - rewrite bool_decide_eq_false_2 by exact H. reflexivity.
  - rewrite andb_false_r. reflexivity.
Qed.

(** X9.  Selecting a tool sets the active tool and nothing else:
    transcript, draft, loading flag, language, text area, console,
    requests and calls in flight are as before.  And in a reachable world
    it makes no difference to any other event: selecting the tool before
    the event or after it gives the same world. *)
Theorem select_tool_only_sets_tool w c1 c2 tool :
  reachable apiKey resources w ->
  let w' := dispatch apiKey resources c1 w (SelectTool tool) in
  (activeTool (state w') = tool
   /\ messages (state w') = messages (state w)
   /\ input (state w') = input (state w)
   /\ isLoading (state w') = isLoading (state w)
   /\ language w' = language w
   /\ textareaHeight w' = textareaHeight w
   /\ console w' = console w
   /\ requests w' = requests w
   /\ inflight w' = inflight w)
  /\ forall ev,
       (forall tool', ev <> SelectTool tool') ->
       dispatch apiKey resources c2 w' ev
       = dispatch apiKey resources c1
           (dispatch apiKey resources c2 w ev) (SelectTool tool).
Proof.
  intros Hr w'. split; [repeat split |].
  intros ev Hev. apply select_tool_commutes; [| exact Hev].
  apply reachable_consistent, Hr.
Qed.

(** X10.  Toggling the language gives "zh" from "en" and "en" from
    anything else, and touches nothing but the language; so two toggles
    give back the language when it was "en" or "zh", and "zh" otherwise. *)
Theorem toggle_language clock clock' w :
  let w1 := dispatch apiKey resources clock w ToggleLanguage in
  let w2 := dispatch apiKey resources clock' w1 ToggleLanguage in
  language w1 = (if decide (language w = js "en") then js "zh" else js "en")
  /\ state w1 = state w
  /\ textareaHeight w1 = textareaHeight w
  /\ console w1 = console w
  /\ requests w1 = requests w
  /\ inflight w1 = inflight w
  /\ language w2
     = (if decide (language w = js "en") then js "en" else js "zh").
Proof.
  simpl. repeat split.
  destruct (decide (language w = js "en")); reflexivity.
Qed.

(** X11.  Typing sets the draft to the value of the text area and its
    height to the scroll height, capped at 200 pixels; the transcript,
    the loading flag, the tool, the console, the requests and the calls
    in flight are as before.  Of two changes in a row only the second
    shows. *)
Theorem change_sets_draft_and_height clock w value scrollHeight :
  let w' := dispatch apiKey resources clock w (Change value scrollHeight) in
  input (state w') = value
  /\ textareaHeight w'
     = Px (if (scrollHeight <=? 200)%Z then scrollHeight else 200%Z)
  /\ messages (state w') = messages (state w)
  /\ isLoading (state w') = isLoading (state w)
  /\ activeTool (state w') = activeTool (state w)
  /\ language w' = language w
  /\ console w' = console w
  /\ requests w' = requests w
  /\ inflight w' = inflight w
  /\ forall clock0 value0 scrollHeight0,
       dispatch apiKey resources clock
         (dispatch apiKey resources clock0 w (Change value0 scrollHeight0))
         (Change value scrollHeight)
       = w'.
Proof.
  simpl. repeat split. f_equal.
  destruct (Z.leb_spec scrollHeight 200); lia.
Qed.

(** X12.  The submit button is disabled exactly when submitting would
    change nothing. *)
Theorem button_disabled_iff_inert clock w :
  submitDisabled (state w) = true
  <-> dispatch apiKey resources clock w Submit = w.
Proof.
  split; [apply dispatch_submit_disabled |].
  intros E. destruct (submitDisabled (state w)) eqn:Hd; [reflexivity |].
  apply submitDisabled_false in Hd.
  destruct (submit_changes clock w Hd E).
Qed.

(** X13.  Submitting changes nothing exactly when every character of
    the draft is white space (the empty draft included) or the loading
    flag is set. *)
Theorem submit_inert_iff_blank_or_loading clock w :
  dispatch apiKey resources clock w Submit = w
  <-> blank (input (state w)) \/ isLoading (state w) = true.
Proof.
  rewrite <- trim_blank_iff. split.
  - intros E. destruct (isLoading (state w)) eqn:Hl; [auto |]. left.
    destruct (trim (input (state w))) as [| c r] eqn:Ht; [reflexivity |].
    exfalso. apply (submit_changes clock w); [| exact E].
    split; [rewrite Ht; discriminate | exact Hl].
  - intros H. apply dispatch_submit_disabled. unfold submitDisabled.
    destruct H as [-> | ->]; [reflexivity | apply orb_true_r].
Qed.

(** X14.  The user turn a legal submission appends holds the draft
    without the white space at its two ends: the content is a string
    that is not empty, neither starts nor ends with white space, and the
    draft is that string between two runs of white space. *)
Theorem user_turn_is_trimmed_draft clock w :
  submittable (state w) ->
  exists turn rest text pre post,
    messages (state (dispatch apiKey resources clock w Submit))
    = messages (state w) ++ turn :: rest
    /\ role turn = user
    /\ content turn = JStr text
    /\ text <> []
    /\ (forall c, head text = Some c \/ last text = Some c ->
                  is_white_space c = false)
    /\ input (state w) = pre ++ text ++ post
    /\ blank pre /\ blank post.
Proof.
  intros Hs. destruct (submit_messages clock w Hs) as (rest & Hm & _).
  destruct (trim_middle (input (state w))) as (pre & post & Hin & Hpre & Hpost).
  exists (userTurn clock (state w)), rest, (trim (input (state w))), pre, post.
  repeat split; try assumption.
  - exact (proj1 Hs).
  - apply trim_ends.
Qed.

(** X15.  When the request of [callGroqAPI] is rejected, the error the
    gateway throws carries the upstream [error.message] of the response
    body when there is a truthy one, and the fallback text otherwise:
    when the body has none, and when there is no response at all. *)
Theorem gateway_surfaces_upstream_message clock userMessages w :
  configured apiKey ->
  exists k,
    (exec resources clock (callGroqAPI apiKey userMessages) w).1
    = Post (completion_request (default [] apiKey) userMessages) k
    /\ forall clock' w' msg,
        (forall r,
           let upstream :=
             opt_field (opt_field (data r) (js "error")) (js "message") in
           (exec resources clock' (k (Rejected msg (Some r))) w').1
           = Throw (Error
               (if truthy upstream then upstream
                else JStr (js "Failed to get response from Groq API"))))
        /\ (exec resources clock' (k (Rejected msg None)) w').1
           = Throw (Error (JStr (js "Failed to get response from Groq API"))).
Proof.
  intros Hk.
  destruct (callGroqAPI_configured resources apiKey userMessages clock w Hk)
    as (k & Hexec & Hres).
  exists k. split; [rewrite Hexec; reflexivity |].
  intros clock' w' msg. split; [intros r upstream |]; rewrite Hres; reflexivity.
Qed.

(** X16.  Without a credential, mounting writes one error on the console
    and nothing else: no request, no call in flight, the initial state. *)
Theorem mount_without_credential clock lng :
  ~ configured apiKey ->
  let w0 := mount apiKey resources clock lng in
  requests w0 = []
  /\ inflight w0 = ∅
  /\ state w0 = {| messages := []; input := []; isLoading := false;
                   activeTool := chat |}
  /\ language w0 = lng
  /\ console w0
     = [ConsoleError
          [LStr (js "API key is missing! Please check your .env file")]].
Proof.
  intros Hk w0. subst w0. rewrite (mount_unconfigured _ _ clock lng Hk).
  repeat split.
Qed.


(** X18.  "New chat" resets the transcript and the draft only: the
    loading flag, the tool, the language, the height of the text area,
    the console, the requests and the calls in flight are as before.  A
    second "new chat" changes nothing more, and a draft typed before it
    is lost whatever it was. *)
Theorem newChat_frame clock clock' w :
  let w' := dispatch apiKey resources clock w NewChat in
  isLoading (state w') = isLoading (state w)
  /\ activeTool (state w') = activeTool (state w)
  /\ language w' = language w
  /\ textareaHeight w' = textareaHeight w
  /\ console w' = console w
  /\ requests w' = requests w
  /\ inflight w' = inflight w
  /\ dispatch apiKey resources clock' w' NewChat = w'
  /\ forall clock0 value scrollHeight,
       state (dispatch apiKey resources clock
                (dispatch apiKey resources clock0 w
                   (Change value scrollHeight))
                NewChat)
       = state w'.
Proof. repeat split. Qed.

(** X20.  While the loading flag is set in a reachable world, a request
    is in flight whose settling, with any outcome, clears the flag; and
    no other event clears it. *)
Theorem loading_ends_with_settlement w :
  reachable apiKey resources w ->
  isLoading (state w) = true ->
  exists rid,
    chat_in_flight w rid
    /\ (forall clock out,
          isLoading (state (dispatch apiKey resources clock w
                              (Settle rid out))) = false)
    /\ (forall clock ev,
          isLoading (state (dispatch apiKey resources clock w ev)) = false ->
          exists out, ev = Settle rid out).
Proof.
  intros Hr Hl. apply reachable_consistent in Hr.
  destruct (loading_chat _ _ _ Hr Hl) as (rid & Hchat).
  assert (Hd : submitDisabled (state w) = true).
  { unfold submitDisabled. rewrite Hl. apply orb_true_r. }
  exists rid. split; [exact Hchat |]. split.
  - intros clock out. pose proof Hchat as (k & key & msgs & Hk & Hrq).
    destruct (settle_cases apiKey resources clock w rid out Hr)
      as [[Hn _] | [(key' & entry & Hrq' & _) | [_ ->]]].
    + congruence.
    + rewrite Hrq in Hrq'. inversion Hrq'.
    + apply resolved_frame.
  - intros clock ev.
    destruct ev as [| key shiftKey | value sh | | tool | | rid' out].
    + rewrite (dispatch_submit_disabled _ _ _ _ Hd). congruence.
    + rewrite dispatch_keydown.
      destruct (bool_decide (key = js "Enter") && negb shiftKey);
        [rewrite (dispatch_submit_disabled _ _ _ _ Hd) |]; congruence.
    + simpl. congruence.
    + simpl. congruence.
    + simpl. congruence.
    + simpl. congruence.
    + destruct (settle_cases apiKey resources clock w rid' out Hr)
        as [[_ ->] | [(key' & entry & _ & ->) | [Hchat' _]]].
      * congruence.
      * simpl. congruence.
      * intros _. exists out.
        rewrite (chat_unique _ _ _ Hr rid' rid Hchat' Hchat). reflexivity.
Qed.

(** X19.  As long as "new chat" is not used, the transcript is a run
    of complete exchanges, a user turn then an assistant turn, followed
    by one more user turn exactly while the loading flag is set. *)
Theorem transcript_alternates w :
  reachable_without_reset apiKey resources w ->
  exists n,
    role <$> messages (state w)
    = concat (replicate n [user; assistant])
      ++ (if isLoading (state w) then [user] else []).
Proof.
  induction 1 as [clock lng | clock w ev Hr IH Hev].
  - exists 0%nat. unfold mount, spawn, mountEffect.
    destruct apiKey as [[| c key] |]; reflexivity.
  - apply alternating_dispatch; [| exact Hev | exact IH].
    apply reachable_consistent, unreset_reachable, Hr.
Qed.

End Extras.

(** ** The further properties on sample data *)

Lemma sample_typed_reachable :
  reachable sample_key sample_resources sample_typed.
Proof. apply reachable_dispatch, reachable_mount. Defined.

Lemma sample_sent_reachable :
  reachable sample_key sample_resources sample_sent.
Proof. apply reachable_dispatch, sample_typed_reachable. Defined.

Lemma single_completion_in_flight_witness :
  reachable sample_key sample_resources sample_sent
  /\ isLoading (state sample_sent) = true
  /\ exists rid, chat_in_flight sample_sent rid.
Proof.
  split; [exact sample_sent_reachable |]. split; [reflexivity |].
  exact (proj1 (proj2 (single_completion_in_flight sample_key
           sample_resources sample_sent sample_sent_reachable)) eq_refl).
Defined.

Lemma textarea_height_capped_witness :
  reachable sample_key sample_resources sample_typed
  /\ textareaHeight sample_typed = Px 24
  /\ (24 <= 200)%Z.
Proof.
  split; [exact sample_typed_reachable |]. split; [reflexivity |].
  exact (textarea_height_capped sample_key sample_resources sample_typed 24
           sample_typed_reachable eq_refl).
Defined.

Lemma requests_authorized_everywhere_witness :
  reachable sample_key sample_resources sample_sent
  /\ probe_request (js "gsk_0123456789") ∈ requests sample_sent
  /\ exists key,
       sample_key = Some key /\ key <> []
       /\ url (probe_request (js "gsk_0123456789"))
          = js "https://api.groq.com/v1/chat/completions"
       /\ headers (probe_request (js "gsk_0123456789"))
          = [(js "Content-Type", js "application/json");
             (js "Authorization", js "Bearer " ++ key)].
Proof.
  assert (Hin : probe_request (js "gsk_0123456789") ∈ requests sample_sent).
  { apply list_elem_of_In. left. reflexivity. }
  split; [exact sample_sent_reachable |]. split; [exact Hin |].
  exact (requests_authorized_everywhere sample_key sample_resources
           sample_sent _ sample_sent_reachable Hin).
Defined.

Lemma unconfigured_never_requests_witness :
  ~ configured None
  /\ requests
       (dispatch None sample_resources 7
          (dispatch None sample_resources 6
             (mount None sample_resources 5 (js "en"))
             (Change (js "  Hi there ") 24))
          Submit)
     = [].
Proof.
  split; [exact none_unconfigured |].
  refine (proj1 (unconfigured_never_requests None sample_resources _
                   none_unconfigured _)).
  apply reachable_dispatch, reachable_dispatch, reachable_mount.
Defined.

Lemma settle_frame_witness :
  reachable sample_key sample_resources sample_sent
  /\ requests (dispatch sample_key sample_resources 9 sample_sent
                 (Settle 1 (Fulfilled (sample_reply (JStr (js "Hello!"))))))
     = requests sample_sent.
Proof.
  split; [exact sample_sent_reachable |].
  exact (proj1 (settle_frame sample_key sample_resources sample_sent 9 1
                  (Fulfilled (sample_reply (JStr (js "Hello!"))))
                  sample_sent_reachable)).
Defined.

Lemma transcript_append_only_witness :
  reachable sample_key sample_resources sample_typed
  /\ Submit <> NewChat
  /\ exists added,
       messages (state (dispatch sample_key sample_resources 7 sample_typed
                          Submit))
       = messages (state sample_typed) ++ added
       /\ (length added <= 2)%nat.
Proof.
  assert (Hev : Submit <> NewChat) by discriminate.
  split; [exact sample_typed_reachable |]. split; [exact Hev |].
  exact (transcript_append_only sample_key sample_resources sample_typed 7
           Submit sample_typed_reachable Hev).
Defined.

Lemma only_submission_requests_witness :
  reachable sample_key sample_resources sample_typed
  /\ requests (dispatch sample_key sample_resources 7 sample_typed Submit)
     <> requests sample_typed
  /\ submittable (state sample_typed)
  /\ configured sample_key.
Proof.
  assert (Hne : requests (dispatch sample_key sample_resources 7
                            sample_typed Submit)
                <> requests sample_typed).
  { intros H. apply (f_equal length) in H. vm_compute in H. discriminate. }
  split; [exact sample_typed_reachable |]. split; [exact Hne |].
  destruct (only_submission_requests sample_key sample_resources
              sample_typed 7 Submit sample_typed_reachable Hne)
    as (_ & Hs & Hk & _).
  split; [exact Hs | exact Hk].
Defined.

Lemma keydown_submits_or_nothing_witness :
  (js "Enter" <> js "Enter" \/ true = true)
  /\ dispatch sample_key sample_resources 7 sample_typed
       (KeyDown (js "Enter") true)
     = sample_typed.
Proof.
  split; [right; reflexivity |].
  exact (proj2 (keydown_submits_or_nothing sample_key sample_resources 7
                  sample_typed) (js "Enter") true (or_intror eq_refl)).
Defined.

Lemma select_tool_only_sets_tool_witness :
  reachable sample_key sample_resources sample_sent
  /\ dispatch sample_key sample_resources 9
       (dispatch sample_key sample_resources 8 sample_sent (SelectTool chart))
       (Settle 1 (Fulfilled (sample_reply (JStr (js "Hello!")))))
     = dispatch sample_key sample_resources 8
         (dispatch sample_key sample_resources 9 sample_sent
            (Settle 1 (Fulfilled (sample_reply (JStr (js "Hello!"))))))
         (SelectTool chart).
Proof.
  split; [exact sample_sent_reachable |].
  refine (proj2 (select_tool_only_sets_tool sample_key sample_resources
                   sample_sent 8 9 chart sample_sent_reachable) _ _).
  intros tool'. discriminate.
Defined.

Lemma button_disabled_iff_inert_witness :
  submitDisabled (state (initial (js "en"))) = true
  /\ dispatch sample_key sample_resources 7 (initial (js "en")) Submit
     = initial (js "en").
Proof.
  split; [reflexivity |].
  exact (proj1 (button_disabled_iff_inert sample_key sample_resources 7
                  (initial (js "en"))) eq_refl).
Defined.

Lemma submit_inert_iff_blank_or_loading_witness :
  blank (js "   ")
  /\ dispatch sample_key sample_resources 7
       (dispatch sample_key sample_resources 6 sample_mounted
          (Change (js "   ") 24)) Submit
     = dispatch sample_key sample_resources 6 sample_mounted
         (Change (js "   ") 24).
Proof.
  assert (Hb : blank (js "   ")) by (repeat constructor).
  split; [exact Hb |].
  exact (proj2 (submit_inert_iff_blank_or_loading sample_key
                  sample_resources 7
                  (dispatch sample_key sample_resources 6 sample_mounted
                     (Change (js "   ") 24)))
               (or_introl Hb)).
Defined.

Lemma user_turn_is_trimmed_draft_witness :
  submittable (state sample_world)
  /\ exists turn rest text,
       messages (state (dispatch sample_key sample_resources 7 sample_world
                          Submit))
       = messages (state sample_world) ++ turn :: rest
       /\ content turn = JStr text
       /\ text <> [].
Proof.
  split; [exact sample_submittable |].
  destruct (user_turn_is_trimmed_draft sample_key sample_resources 7
              sample_world sample_submittable)
    as (turn & rest & text & pre & post & Hm & _ & Hc & Hne & _).
  exists turn, rest, text. split; [exact Hm |]. split; [exact Hc | exact Hne].
Defined.

Lemma gateway_surfaces_upstream_message_witness :
  configured sample_key
  /\ exists k,
       (exec sample_resources 7 (callGroqAPI sample_key []) sample_world).1
       = Post (completion_request (js "gsk_0123456789") []) k
       /\ (exec sample_resources 9
             (k (Rejected (js "Request failed with status code 401")
                   (Some {| status := 401;
                            data := JObj {[ js "error" :=
                              JObj {[ js "message" :=
                                JStr (js "Invalid API Key") ]} ]} |})))
             sample_world).1
          = Throw (Error (JStr (js "Invalid API Key"))).
Proof.
  split; [exact sample_configured |].
  destruct (gateway_surfaces_upstream_message sample_key sample_resources 7
              [] sample_world sample_configured) as (k & Hk & Hres).
  exists k. split; [exact Hk |].
  exact (proj1 (Hres 9 sample_world _) _).
Defined.

Lemma mount_without_credential_witness :
  ~ configured None
  /\ requests (mount None sample_resources 5 (js "en")) = [].
Proof.
  split; [exact none_unconfigured |].
  exact (proj1 (mount_without_credential None sample_resources 5 (js "en")
                  none_unconfigured)).
Defined.


Lemma transcript_alternates_witness :
  reachable_without_reset sample_key sample_resources sample_sent
  /\ exists n,
       role <$> messages (state sample_sent)
       = concat (replicate n [user; assistant])
         ++ (if isLoading (state sample_sent) then [user] else []).
Proof.
  assert (Hr : reachable_without_reset sample_key sample_resources
                 sample_sent).
  { apply unreset_dispatch; [| discriminate].
    apply unreset_dispatch; [| discriminate].
    apply unreset_mount. }
  split; [exact Hr |].
  exact (transcript_alternates sample_key sample_resources sample_sent Hr).
Defined.

Lemma loading_ends_with_settlement_witness :
  reachable sample_key sample_resources sample_sent
  /\ isLoading (state sample_sent) = true
  /\ exists rid,
       chat_in_flight sample_sent rid
       /\ isLoading (state (dispatch sample_key sample_resources 9 sample_sent
                              (Settle rid (Rejected (js "Network Error")
                                             None))))
          = false.
Proof.
  split; [exact sample_sent_reachable |]. split; [reflexivity |].
  destruct (loading_ends_with_settlement sample_key sample_resources
              sample_sent sample_sent_reachable eq_refl)
    as (rid & Hchat & Hclear & _).
  exists rid. split; [exact Hchat | apply Hclear].
Defined.
